(** * typhon: the Response value, its body discipline and content negotiation

    A shallow embedding of [response.go].  A [Response] is a mutable record
    reached through a pointer receiver; its body is an interface value that
    points to a stream object.  Stream objects live in a store and are
    mutated in place, so the methods are written in a state monad over the
    store and the receiver, with a separate outcome for a Go run-time panic. *)

From Stdlib Require Import ZArith Lia Ascii.
From stdpp Require Import gmap strings list fin_maps pretty.

Set Warnings "-register-all".

Local Open Scope Z_scope.

Abbreviation byte := Byte.byte.

(** ** Machine integers *)

(** [int64] arithmetic wraps around in Go. *)
Definition int64 (z : Z) : Z := (z + 2 ^ 63) mod 2 ^ 64 - 2 ^ 63.

Definition MaxInt64 : Z := 2 ^ 63 - 1.
Definition MinInt64 : Z := - 2 ^ 63.

(** ** Errors *)

(** A Go [error] value: either an error of some other package, known only by
    its message, or a [*terrors.Error] with its code, message, parameters and
    cause.  A nil [error] is [None] at type [option error]. *)
Inductive error : Type :=
| GoError (msg : string)
| TError (code message : string) (params : list (string * string))
         (cause : option error).

(** The part of package [github.com/monzo/terrors] that the code calls.
    It is an external package; the definitions follow its documented
    behaviour. *)
Module terrors.

Definition ErrInternalService : string := "internal_service".
Definition ErrBadResponse : string := "bad_response".

Definition errCode (prefix code : string) : string :=
  if String.eqb code "" then prefix
  else if String.eqb prefix "" then code
  else (prefix +:+ "." +:+ code)%string.

Definition Message (e : error) : string :=
  match e with
  | GoError m => m
  | TError _ m _ _ => m
  end.

Definition Cause (e : error) : option error :=
  match e with
  | GoError _ => None
  | TError _ _ _ c => c
  end.

Definition Code (e : error) : option string :=
  match e with
  | GoError _ => None
  | TError c _ _ _ => Some c
  end.

Definition WrapWithCode (err : option error) (params : list (string * string))
    (code : string) : option error :=
  match err with
  | None => None
  | Some (TError c m p cause) => Some (TError c m (p ++ params) cause)
  | Some (GoError m) => Some (TError code m params (Some (GoError m)))
  end.

Definition Wrap (err : option error) (params : list (string * string))
    : option error :=
  WrapWithCode err params ErrInternalService.

Definition InternalService (code message : string)
    (params : list (string * string)) : error :=
  TError (errCode ErrInternalService code) message params None.

Definition NewInternalWithCause (err : option error) (message : string)
    (params : list (string * string)) (subCode : string) : error :=
  TError (errCode ErrInternalService subCode) message params err.

End terrors.

(** ** Stream objects and the store *)

Definition addr := nat.

(** A stream of another package: what an [io.Reader] that is not a
    [*bufCloser] looks like to [ioutil.ReadAll], [io.Copy] and
    [io.TeeReader].  Reading it to the end delivers [fs_data] and then stops
    with [io.EOF] ([fs_end = None]) or with a read error.  [fs_after_close]
    is what [Read] answers once the stream is closed: [None] for a stream
    that can still be read, [Some e] for one that refuses.  [fs_sink] is
    [Some (room, e)] when the dynamic type also implements [io.Writer]: such
    a writer follows the [io.Writer] contract, it takes [room] more bytes and
    answers a short write with the error [e]. *)
Record foreign : Type := mkForeign {
  fs_data : list byte;
  fs_end : option error;
  fs_closer : bool;
  fs_closed : bool;
  fs_after_close : option error;
  fs_sink : option (nat * error);
  fs_written : list byte
}.

(** Modelled from the spec: [bufCloser], the Deferred buffer, is declared in
    another file of the package.  It is an append-only byte sequence read
    with a cursor ([unread] is what is still to be read); its close is
    idempotent and erases nothing, so [closed] only records that [Close] was
    called.

    The other objects a body can point to are the streams of other packages
    and [NopCloser inner closed], the value of [ioutil.NopCloser]: it reads
    from [inner] and its [Close] does nothing; [closed] again records the
    call. *)
Inductive object : Type :=
| bufCloser (unread : list byte) (closed : bool)
| Foreign (f : foreign)
| NopCloser (inner : addr) (closed : bool).

Abbreviation store := (gmap addr object).

(** What reading a foreign stream to its end delivers. *)
Definition deliver (f : foreign) : list byte * option error :=
  match fs_closed f, fs_after_close f with
  | true, Some e => ([], Some e)
  | _, _ => (fs_data f, fs_end f)
  end.

(** The stream after it was read to its end. *)
Definition exhaust (f : foreign) : foreign :=
  match fs_closed f, fs_after_close f with
  | true, Some _ => f
  | _, _ => mkForeign [] (fs_end f) (fs_closer f) (fs_closed f)
                      (fs_after_close f) (fs_sink f) (fs_written f)
  end.

Definition close_foreign (f : foreign) : foreign :=
  mkForeign (fs_data f) (fs_end f) (fs_closer f) true
            (fs_after_close f) (fs_sink f) (fs_written f).

(** [Write] of a foreign writer with [room] bytes left. *)
Definition sink_foreign (f : foreign) (room : nat) (e : error) (b : list byte)
    : foreign * (nat * option error) :=
  if (length b <=? room)%nat
  then (mkForeign (fs_data f) (fs_end f) (fs_closer f) (fs_closed f)
                  (fs_after_close f) (Some ((room - length b)%nat, e))
                  (fs_written f ++ b),
        (length b, None))
  else (mkForeign (fs_data f) (fs_end f) (fs_closer f) (fs_closed f)
                  (fs_after_close f) (Some (0%nat, e))
                  (fs_written f ++ take room b),
        (room, Some e)).

(** The type switches of the code ask for these capabilities. *)
Definition is_bufCloser (o : object) : bool :=
  match o with bufCloser _ _ => true | _ => false end.

Definition is_Writer (o : object) : bool :=
  match o with
  | bufCloser _ _ => true
  | Foreign f => match fs_sink f with Some _ => true | None => false end
  | NopCloser _ _ => false
  end.

Definition has_Close (o : object) : bool :=
  match o with
  | bufCloser _ _ => true
  | Foreign f => fs_closer f
  | NopCloser _ _ => true
  end.

Definition is_closed (o : object) : bool :=
  match o with
  | bufCloser _ c => c
  | Foreign f => fs_closed f
  | NopCloser _ c => c
  end.

(** Reading an object that is not a wrapper to its end. *)
Definition read_base (st : store) (a : addr)
    : option (list byte * option error * store) :=
  match st !! a with
  | Some (bufCloser d c) => Some (d, None, <[a := bufCloser [] c]> st)
  | Some (Foreign f) =>
      Some (fst (deliver f), snd (deliver f), <[a := Foreign (exhaust f)]> st)
  | _ => None
  end.

(** Reading any object to its end; a [NopCloser] reads its inner reader. *)
Definition read_all (st : store) (a : addr)
    : option (list byte * option error * store) :=
  match st !! a with
  | Some (NopCloser i _) => read_base st i
  | _ => read_base st a
  end.

Definition close_object (o : object) : object :=
  match o with
  | bufCloser d _ => bufCloser d true
  | Foreign f => Foreign (close_foreign f)
  | NopCloser i _ => NopCloser i true
  end.

Definition write_object (o : object) (b : list byte)
    : option (object * (nat * option error)) :=
  match o with
  | bufCloser d c => Some (bufCloser (d ++ b) c, (length b, None))
  | Foreign f =>
      match fs_sink f with
      | Some (room, e) =>
          Some (Foreign (fst (sink_foreign f room e b)),
                snd (sink_foreign f room e b))
      | None => None
      end
  | NopCloser _ _ => None
  end.

(** ** Requests and responses *)

(** A value stored in a [context.Context]. *)
Inductive ctxval : Type :=
| CtxString (s : string)
| CtxOther.

(** [http.Header].  The map of a response is the one that
    [newHTTPResponse] or the transport allocated; a map that may be nil
    is the matter of [NilHeader] below. *)
Abbreviation header := (gmap string (list string)).

(** Modelled from the spec: [Request] is declared in another file of the
    package.  The code reads its headers, its protocol fields and its
    context; of the context only the value under the key
    [WrapDownstreamErrors{}] is looked up. *)
Record Request : Type := mkRequest {
  ReqHeader : header;
  ReqProto : string;
  ReqProtoMajor : Z;
  ReqProtoMinor : Z;
  Context : option (option ctxval)
}.

Module http.

Definition StatusOK : Z := 200.

(** [Header.Get]: the first value under the key, or the empty string.
    The keys the code uses are already in canonical form. *)
Definition Get (h : header) (key : string) : string :=
  match h !! key with
  | Some (v :: _) => v
  | _ => ""%string
  end.

Definition Set_ (h : header) (key value : string) : header :=
  <[key := [value]]> h.

Record Response : Type := mkResponse {
  StatusCode : Z;
  Proto : string;
  ProtoMajor : Z;
  ProtoMinor : Z;
  ContentLength : Z;
  Header : header;
  Body : option addr
}.

Definition with_Body (h : Response) (b : option addr) : Response :=
  mkResponse (StatusCode h) (Proto h) (ProtoMajor h) (ProtoMinor h)
             (ContentLength h) (Header h) b.

Definition with_ContentLength (h : Response) (n : Z) : Response :=
  mkResponse (StatusCode h) (Proto h) (ProtoMajor h) (ProtoMinor h)
             n (Header h) (Body h).

Definition with_Header (h : Response) (hd : header) : Response :=
  mkResponse (StatusCode h) (Proto h) (ProtoMajor h) (ProtoMinor h)
             (ContentLength h) hd (Body h).

End http.

Record Response : Type := mkResponse {
  Response_ : option http.Response;
  Error : option error;
  Request_ : option Request;
  hijacked : bool
}.

Definition with_Response (r : Response) (h : option http.Response) : Response :=
  mkResponse h (Error r) (Request_ r) (hijacked r).

Definition with_Error (r : Response) (e : option error) : Response :=
  mkResponse (Response_ r) e (Request_ r) (hijacked r).

(** The zero value [Request{}]. *)
Definition Request_zero : Request := mkRequest ∅ "" 0 0 None.

(** ** The monad of the methods *)

Inductive outcome (A : Type) : Type :=
| Returns (a : A)
| Panics.
Arguments Returns {A} a.
Arguments Panics {A}.

(** The store and the receiver [*r]. *)
Definition world : Type := store * Response.

Definition M (A : Type) : Type := world -> outcome (A * world).

Definition ret {A} (a : A) : M A := fun w => Returns (a, w).

Definition bind {A B} (c : M A) (k : A -> M B) : M B :=
  fun w => match c w with
           | Returns (a, w') => k a w'
           | Panics => Panics
           end.

Definition panic {A} : M A := fun _ => Panics.

Notation "'let*' x ':=' c 'in' k" := (bind c (fun x => k))
  (at level 10, x name, c at level 100, k at level 200).
Notation "'let*' ' p ':=' c 'in' k" := (bind c (fun x => match x with p => k end))
  (at level 10, p pattern, c at level 100, k at level 200).
Notation "c1 ';;;' c2" := (bind c1 (fun _ => c2))
  (at level 100, c2 at level 200, right associativity).

Definition get_r : M Response := fun w => Returns (snd w, w).
Definition put_r (r : Response) : M unit := fun w => Returns (tt, (fst w, r)).
Definition get_store : M store := fun w => Returns (fst w, w).
Definition put_store (st : store) : M unit := fun w => Returns (tt, (st, snd w)).

(** [&T{...}]: a new object at an address that is not in use. *)
Definition alloc (o : object) : M addr :=
  let* st := get_store in
  let a := fresh (dom st) in
  put_store (<[a := o]> st) ;;;
  ret a.

(** Dereferencing a stream pointer.  Every pointer of a Go program points to
    an object; an address outside the store stands for no Go value and the
    model stops there. *)
Definition load (a : addr) : M object :=
  let* st := get_store in
  match st !! a with
  | Some o => ret o
  | None => panic
  end.

(** [r.Response], a nil pointer dereference when the embedded pointer is nil. *)
Definition the_Response : M http.Response :=
  let* r := get_r in
  match Response_ r with
  | Some h => ret h
  | None => panic
  end.

Definition update_Response (f : http.Response -> http.Response) : M unit :=
  let* h := the_Response in
  let* r := get_r in
  put_r (with_Response r (Some (f h))).

Definition set_Body (b : option addr) : M unit :=
  update_Response (fun h => http.with_Body h b).

Definition set_ContentLength (n : Z) : M unit :=
  update_Response (fun h => http.with_ContentLength h n).

Definition Header_Set (key value : string) : M unit :=
  update_Response (fun h => http.with_Header h (http.Set_ (http.Header h) key value)).

Definition set_Error (e : option error) : M unit :=
  let* r := get_r in
  put_r (with_Error r e).

(** [ioutil.ReadAll(rc)]: everything [rc] delivers, and the error that ended
    the reading if it was not [io.EOF]. *)
Definition ioutil_ReadAll (a : addr) : M (list byte * option error) :=
  let* st := get_store in
  match read_all st a with
  | Some (d, e, st') => put_store st' ;;; ret (d, e)
  | None => panic
  end.

(** [rc.Close()]; its result is dropped at every call of the code. *)
Definition Close (a : addr) : M unit :=
  let* o := load a in
  let* st := get_store in
  put_store (<[a := close_object o]> st).

(** [w.Write(b)] on an object that implements [io.Writer]. *)
Definition object_Write (a : addr) (b : list byte) : M (nat * option error) :=
  let* o := load a in
  match write_object o b with
  | Some (o', res) =>
      let* st := get_store in
      put_store (<[a := o']> st) ;;;
      ret res
  | None => panic
  end.

(** [io.Copy(buf, rc)] into a [*bufCloser]: all of [rc] is appended to the
    buffer; the error is the read error of [rc], if any. *)
Definition io_Copy (buf rc : addr) : M (nat * option error) :=
  let* '(d, e) := ioutil_ReadAll rc in
  let* _ := object_Write buf d in
  ret (length d, e).

(** [ioutil.ReadAll(io.TeeReader(rc, buf))]: what is read from [rc] is
    written to [buf] as it is read. *)
Definition ReadAll_TeeReader (rc buf : addr) : M (list byte * option error) :=
  let* '(d, e) := ioutil_ReadAll rc in
  let* _ := object_Write buf d in
  ret (d, e).

(** ** Values handed to the codecs *)

(** A value passed to [Encode] as [interface{}], by what the code asks of
    it.  The codecs are external: [v_Message] is [Some res] when the dynamic
    type implements [proto.Message], with [res] the result of
    [proto.Marshal]; [v_Marshaler] says whether it implements
    [json.Marshaler]; [v_Reader] is [Some a] when it is a stream, the object
    at [a]; [v_json] is the result of marshalling it as JSON. *)
Record value : Type := mkValue {
  v_Message : option (list byte + error);
  v_Marshaler : bool;
  v_Reader : option addr;
  v_json : list byte + error
}.

(** A decode target, by what the code asks of it: whether it implements
    [proto.Message], and what [proto.Unmarshal] and [json.Unmarshal] answer
    for given bytes. *)
Record target : Type := mkTarget {
  t_Message : bool;
  t_proto_Unmarshal : list byte -> option error;
  t_json_Unmarshal : list byte -> option error
}.

(** [strings.Contains]. *)
Fixpoint Contains (s substr : string) : bool :=
  String.prefix substr s
  || match s with
     | EmptyString => false
     | String _ s' => Contains s' substr
     end.

Definition newline : byte := Byte.x0a.

Section Typhon.

(** Modelled from the spec: [chunkThreshold] is declared in another file of
    the package; it is a fixed byte count, kept as a parameter. *)
Variable chunkThreshold : Z.

Definition newHTTPResponse (req : Request) (statusCode : Z) : M http.Response :=
  let* buf := alloc (bufCloser [] false) in
  ret (http.mkResponse statusCode (ReqProto req) (ReqProtoMajor req)
                       (ReqProtoMinor req) 0 ∅ (Some buf)).

Definition NewResponseWithCode (req : Request) (statusCode : Z) : M Response :=
  let* h := newHTTPResponse req statusCode in
  ret (mkResponse (Some h) None (Some req) false).

Definition NewResponse (req : Request) : M Response :=
  NewResponseWithCode req http.StatusOK.

(** [if r.Response == nil { r.Response = newHTTPResponse(Request{}, http.StatusOK) }] *)
Definition ensure_Response : M unit :=
  let* r := get_r in
  match Response_ r with
  | Some _ => ret tt
  | None =>
      let* h := newHTTPResponse Request_zero http.StatusOK in
      let* r := get_r in
      put_r (with_Response r (Some h))
  end.

(** The end of [Write]: the accounting of the content length. *)
Definition account (n : nat) : M (nat * option error) :=
  let* h := the_Response in
  (if 0 <=? http.ContentLength h
   then
     let cl := int64 (http.ContentLength h + Z.of_nat n) in
     if chunkThreshold <=? cl
     then set_ContentLength (-1)
     else set_ContentLength cl
   else ret tt) ;;;
  ret (n, None).

Definition Write (b : list byte) : M (nat * option error) :=
  ensure_Response ;;;
  let* h := the_Response in
  match http.Body h with
  | Some rc =>
      let* o := load rc in
      if is_Writer o
      then
        let* '(n, err) := object_Write rc b in
        match err with
        | Some e => ret (n, Some e)
        | None => account n
        end
      else
        let* buf := alloc (bufCloser [] false) in
        let* '(_, err) := io_Copy buf rc in
        match err with
        | Some e => ret (0%nat, Some e)
        | None =>
            Close rc ;;;
            set_Body (Some buf) ;;;
            let* '(n, err) := object_Write buf b in
            match err with
            | Some e => ret (n, Some e)
            | None => account n
            end
        end
  | None =>
      let* buf := alloc (bufCloser [] false) in
      set_Body (Some buf) ;;;
      let* '(n, err) := object_Write buf b in
      match err with
      | Some e => ret (n, Some e)
      | None => account n
      end
  end.

(** The default branch of the type switch of [BodyBytes]; [rc] is nil when
    the body is, and [defer rc.Close()] then panics. *)
Definition duplicate (rc : option addr) : M (list byte * option error) :=
  let* buf := alloc (bufCloser [] false) in
  set_Body (Some buf) ;;;
  match rc with
  | None => panic
  | Some rc =>
      let* res := ReadAll_TeeReader rc buf in
      Close rc ;;;
      ret res
  end.

Definition BodyBytes (consume : bool) : M (list byte * option error) :=
  let* h := the_Response in
  if consume
  then
    match http.Body h with
    | None => panic
    | Some body =>
        let* res := ioutil_ReadAll body in
        Close body ;;;
        ret res
    end
  else
    match http.Body h with
    | Some rc =>
        let* o := load rc in
        match o with
        | bufCloser d _ => ret (d, None)
        | _ => duplicate (Some rc)
        end
    | None => duplicate None
    end.

Definition EncodeAsProtobuf (m : list byte + error) : M unit :=
  match m with
  | inr err => set_Error (terrors.Wrap (Some err) [])
  | inl b =>
      let* '(n, err) := Write b in
      set_Error (terrors.Wrap err []) ;;;
      Header_Set "Content-Type" "application/protobuf" ;;;
      set_ContentLength (Z.of_nat n)
  end.

(** [json.NewEncoder(r).Encode(v)]: the value is marshalled, a newline is
    appended, and the bytes go through [r.Write] in one call. *)
Definition json_Encode (v : value) : M (option error) :=
  match v_json v with
  | inr err => ret (Some err)
  | inl b =>
      let* '(_, err) := Write (b ++ [newline]) in
      ret err
  end.

Definition Encode (v : value) : M unit :=
  ensure_Response ;;;
  let* adopted :=
    match v_Message v, v_Marshaler v, v_Reader v with
    | None, false, Some s =>
        let* o := load s in
        (if has_Close o
         then set_Body (Some s)
         else
           let* nc := alloc (NopCloser s false) in
           set_Body (Some nc)) ;;;
        set_ContentLength (-1) ;;;
        ret true
    | _, _, _ => ret false
    end in
  if (adopted : bool) then ret tt
  else
    let* r := get_r in
    let acceptsProtobuf :=
      match Request_ r with
      | Some req =>
          Contains (http.Get (ReqHeader req) "Accept") "application/protobuf"
      | None => false
      end in
    match v_Message v, acceptsProtobuf with
    | Some m, true => EncodeAsProtobuf m
    | _, _ =>
        let* err := json_Encode v in
        match err with
        | Some e => set_Error (terrors.Wrap (Some e) [])
        | None => Header_Set "Content-Type" "application/json"
        end
    end.

(** Whether the context of the request carries a non-empty string under
    [WrapDownstreamErrors{}]. *)
Definition wraps_downstream (r : Response) : bool :=
  match Request_ r with
  | Some req =>
      match Context req with
      | Some (Some (CtxString s)) => negb (String.eqb s "")
      | _ => false
      end
  | None => false
  end.

Definition binary_media_type (ct : string) : bool :=
  String.eqb ct "application/octet-stream"
  || String.eqb ct "application/x-google-protobuf"
  || String.eqb ct "application/protobuf".

Definition Decode (v : target) : M (option error) :=
  let* r := get_r in
  match Error r with
  | Some e =>
      if wraps_downstream r
      then ret (Some (terrors.NewInternalWithCause (Some e)
                        "Downstream request error" [] "downstream"))
      else ret (Some e)
  | None =>
      match Response_ r with
      | None =>
          let e := terrors.InternalService "" "Response has no body" [] in
          set_Error (Some e) ;;;
          ret (Some e)
      | Some _ =>
          let* '(b, err) := BodyBytes true in
          match err with
          | Some _ =>
              let e := terrors.WrapWithCode err [] terrors.ErrBadResponse in
              set_Error e ;;;
              ret e
          | None =>
              let* h := the_Response in
              let* res :=
                if binary_media_type (http.Get (http.Header h) "Content-Type")
                then
                  if t_Message v
                  then ret (inl (t_proto_Unmarshal v b))
                  else ret (inr (terrors.InternalService "invalid_type"
                                   "could not decode proto message" []))
                else ret (inl (t_json_Unmarshal v b)) in
              match res with
              | inr e => ret (Some e)
              | inl err =>
                  match err with
                  | Some _ => set_Error err
                  | None => ret tt
                  end ;;;
                  ret err
              end
          end
      end
  end.

End Typhon.

(** ** Observations on a world *)

Definition body_of (w : world) : option addr :=
  match Response_ (snd w) with
  | Some h => http.Body h
  | None => None
  end.

Definition content_length (w : world) : option Z :=
  match Response_ (snd w) with
  | Some h => Some (http.ContentLength h)
  | None => None
  end.

(** The headers of the response, those of the shell that [Encode] and
    [Write] build when there is no response yet. *)
Definition headers_of (w : world) : header :=
  match Response_ (snd w) with
  | Some h => http.Header h
  | None => ∅
  end.

Definition closed_at (st : store) (a : addr) : bool :=
  match st !! a with
  | Some o => is_closed o
  | None => false
  end.

(** The pointer [a] can be read as a stream: it points to an object, and a
    [NopCloser] wraps a reader that is not itself a wrapper. *)
Definition readable (st : store) (a : addr) : bool :=
  match st !! a with
  | Some (NopCloser i _) =>
      match st !! i with
      | Some (bufCloser _ _) | Some (Foreign _) => true
      | _ => false
      end
  | Some _ => true
  | None => false
  end.

(** The body of the receiver, when there is one, is such a pointer. *)
Definition well_formed (w : world) : bool :=
  match body_of w with
  | Some a => readable (fst w) a
  | None => true
  end.

(** The stream of a value handed to [Encode], when it is one, is such a
    pointer. *)
Definition value_ok (st : store) (v : value) : bool :=
  match v_Reader v with
  | Some s => readable st s
  | None => true
  end.

(** What stays of an object whatever is read from it or written to it. *)
Inductive shape : Type :=
| SBuf
| SForeign
| SNop (inner : addr).

Definition shape_of (o : object) : shape :=
  match o with
  | bufCloser _ _ => SBuf
  | Foreign _ => SForeign
  | NopCloser i _ => SNop i
  end.

(** [st'] has every object of [st], with the same shape, and closed if it
    was closed. *)
Definition extends (st st' : store) : Prop :=
  forall a o, st !! a = Some o ->
    exists o', st' !! a = Some o'
               /\ shape_of o' = shape_of o
               /\ (is_closed o = true -> is_closed o' = true).

(** Several calls of [Write] in a row, whatever each one returns. *)
Fixpoint Writes (chunkThreshold : Z) (bs : list (list byte)) : M unit :=
  match bs with
  | [] => ret tt
  | b :: bs' => Write chunkThreshold b ;;; Writes chunkThreshold bs'
  end.

(** The content length that the accounting at the end of [Write] leaves,
    from the one before and the count written. *)
Definition accounted (chunkThreshold : Z) (cl : Z) (n : nat) : Z :=
  if 0 <=? cl
  then if chunkThreshold <=? int64 (cl + Z.of_nat n)
       then -1
       else int64 (cl + Z.of_nat n)
  else cl.

(** The content length a call starts from; the shell that [Write] builds
    when there is no response yet has content length 0. *)
Definition length_before (w : world) : Z :=
  match content_length w with
  | Some l => l
  | None => 0
  end.

(** What a call [Write(b)] that returned [n] and [err] leaves of a world
    whose response was [h]. *)
Definition Write_post (chunkThreshold : Z) (st : store) (r : Response)
    (h : http.Response) (b : list byte) (n : nat) (err : option error)
    (w' : world) : Prop :=
  exists h',
    Response_ (snd w') = Some h'
    /\ http.Header h' = http.Header h
    /\ Error (snd w') = Error r
    /\ Request_ (snd w') = Request_ r
    /\ extends st (fst w')
    /\ well_formed w' = true
    /\ match err with
       | Some _ => http.ContentLength h' = http.ContentLength h
       | None =>
           n = length b
           /\ http.ContentLength h'
              = accounted chunkThreshold (http.ContentLength h) (length b)
       end.

(** The world after the first lines of [Encode] and [Write]: a receiver
    without response gets the shell of [newHTTPResponse], with a new empty
    buffer for its body. *)
Definition ensured (w : world) : world :=
  match Response_ (snd w) with
  | Some _ => w
  | None =>
      (<[fresh (dom (fst w)) := bufCloser [] false]> (fst w),
       with_Response (snd w)
         (Some (http.mkResponse http.StatusOK "" 0 0 0 ∅
                                (Some (fresh (dom (fst w)))))))
  end.

(** The type switch of [Encode] adopts the value as the body. *)
Definition adopted_as_stream (v : value) : bool :=
  match v_Message v, v_Marshaler v, v_Reader v with
  | None, false, Some _ => true
  | _, _, _ => false
  end.

(** The request of the receiver accepts the binary media type. *)
Definition acceptsProtobuf (r : Response) : bool :=
  match Request_ r with
  | Some req => Contains (http.Get (ReqHeader req) "Accept") "application/protobuf"
  | None => false
  end.

(** [Encode] takes the path of the structured-text codec: the value is not
    adopted as a stream and is not sent to [EncodeAsProtobuf]. *)
Definition takes_json_path (v : value) (r : Response) : bool :=
  negb (adopted_as_stream v)
  && negb (match v_Message v with Some _ => acceptsProtobuf r | None => false end).

(** ** Sample worlds *)

(** The world a computation leaves, for stating what a call returns. *)
Definition after {A} (c : M A) (w : world) : world :=
  match c w with
  | Returns (_, w') => w'
  | Panics => w
  end.

Definition sample_threshold : Z := 5000000.

Definition bytes_ab : list byte := [Byte.x61; Byte.x62].
Definition bytes_cd : list byte := [Byte.x63; Byte.x64].

(** A closable stream that delivers [ab] and then [io.EOF]. *)
Definition stream_ab : foreign :=
  mkForeign bytes_ab None true false None None [].

(** A closable stream that delivers [ab] and then fails. *)
Definition stream_failing : foreign :=
  mkForeign bytes_ab (Some (GoError "connection reset")) true false None None [].

(** A reader without [Close] that delivers [ab] and then [io.EOF]. *)
Definition reader_ab : foreign :=
  mkForeign bytes_ab None false false None None [].

Definition response_at (body : addr) (cl : Z) (hd : header) : http.Response :=
  http.mkResponse http.StatusOK "HTTP/1.1" 1 1 cl hd (Some body).

(** A response received from a transport: its body is a foreign stream. *)
Definition world_stream : world :=
  (<[7%nat := Foreign stream_ab]> ∅,
   mkResponse (Some (response_at 7%nat (-1) ∅)) None None false).

Definition world_failing : world :=
  (<[7%nat := Foreign stream_failing]> ∅,
   mkResponse (Some (response_at 7%nat (-1) ∅)) None None false).

(** A response whose body is a Deferred buffer that holds [ab]. *)
Definition world_buffer : world :=
  (<[0%nat := bufCloser bytes_ab false]> ∅,
   mkResponse (Some (response_at 0%nat 2 ∅)) None None false).



(** A response whose content length was set to the largest [int64]. *)
Definition overflow_world : world :=
  (<[0%nat := bufCloser [] false]> ∅,
   mkResponse (Some (response_at 0%nat MaxInt64 ∅)) None None false).

(** A response with a binary content type, and a target that does not
    implement [proto.Message]. *)
Definition mismatch_world : world :=
  (<[0%nat := bufCloser bytes_ab false]> ∅,
   mkResponse
     (Some (response_at 0%nat 2
              (http.Set_ ∅ "Content-Type" "application/protobuf")))
     None None false).

Definition mismatch_target : target :=
  mkTarget false (fun _ => None) (fun _ => None).

(** A failed response to a request whose context asks for wrapping. *)
Definition wrapping_request : Request :=
  mkRequest ∅ "HTTP/1.1" 1 1 (Some (Some (CtxString "true"))).

Definition world_downstream : world :=
  (<[0%nat := bufCloser bytes_ab false]> ∅,
   mkResponse (Some (response_at 0%nat 2 ∅)) (Some (GoError "earlier failure"))
              (Some wrapping_request) false).

(** The response of [NewResponse(Request{})] as the receiver. *)
Definition default_world : world :=
  match NewResponse Request_zero (∅, mkResponse None None None false) with
  | Returns (r, (st, _)) => (st, r)
  | Panics => (∅, mkResponse None None None false)
  end.

(** A receiver without response, and a plain reader to encode. *)
Definition world_reader : world :=
  (<[3%nat := Foreign reader_ab]> ∅, mkResponse None None None false).

Definition value_reader : value :=
  mkValue None false (Some 3%nat) (inr (GoError "json: unsupported type")).

(** A value that the structured-text codec cannot marshal. *)
Definition value_unencodable : value :=
  mkValue None false None (inr (GoError "json: unsupported type")).

(** ** The diagnostic string *)

Section Display.

(** The text of an error, [err.Error()], which [%v] prints; for the errors
    of [terrors] it is built by that package. *)
Variable error_string : error -> string.

(** [Response.String]; [%d] prints the status code in decimal. *)
Definition Response_String (r : Response) : string :=
  ("Response("
   +:+ match Response_ r with
       | Some h => pretty (http.StatusCode h)
       | None => "???"
       end
   +:+ match Error r with
       | Some e => ", error: " +:+ error_string e
       | None => ""
       end
   +:+ ")")%string.

End Display.

(** ** Further observations and samples *)

(** The content length follows the buffer: it is the number of bytes the
    buffer at [rc] holds while that is below the chunk threshold, and [-1]
    from the threshold on. *)
Definition length_tracked (chunkThreshold : Z) (w : world) (rc : addr) : Prop :=
  exists d c l,
    fst w !! rc = Some (bufCloser d c)
    /\ content_length w = Some l
    /\ ((l = Z.of_nat (length d) /\ Z.of_nat (length d) < chunkThreshold)
        \/ (l = -1 /\ chunkThreshold <= Z.of_nat (length d))).

(** The bytes the buffer at [a] holds. *)
Definition buffered (st : store) (a : addr) : option (list byte) :=
  match st !! a with
  | Some (bufCloser d _) => Some d
  | _ => None
  end.




(** A target that accepts only the bytes [cd] followed by a newline. *)
Definition target_cd : target :=
  mkTarget false (fun _ => None)
    (fun b => match b with
              | [Byte.x63; Byte.x64; Byte.x0a] => None
              | _ => Some (GoError "unexpected end of JSON input")
              end).

(** A response with a buffer body, and a plain reader beside it. *)
Definition world_two : world :=
  (<[3%nat := Foreign reader_ab]> (<[0%nat := bufCloser bytes_ab false]> ∅),
   mkResponse (Some (response_at 0%nat 2 ∅)) None None false).

(** A response without body. *)
Definition world_no_body : world :=
  (∅, mkResponse (Some (http.mkResponse http.StatusOK "HTTP/1.1" 1 1 0 ∅ None))
                 None None false).

(** ** The header map when it may be nil *)

(** The header map of a response that no constructor built can be nil (the
    [Header] of a zero [http.Response]).  A nil map reads as an empty one,
    but [Header.Set] assigns to an entry and panics on it.  Here [Encode]
    and [EncodeAsProtobuf], the two methods that call [Header.Set], take
    [nil_header]: whether the header map of [r.Response] is nil when the
    call starts.  The shell of [newHTTPResponse] has an allocated map;
    [Write] and [BodyBytes] do not use the map. *)
Module NilHeader.

Section Methods.

Variable chunkThreshold : Z.

(** [r.Header.Set(key, value)] *)
Definition Header_Set (nil_header : bool) (key value : string) : M unit :=
  if nil_header then panic else Header_Set key value.

(** [if r.Response == nil { r.Response = newHTTPResponse(Request{}, http.StatusOK) }];
    the result says whether the header map is nil afterwards. *)
Definition ensure_Response (nil_header : bool) : M bool :=
  let* r := get_r in
  match Response_ r with
  | Some _ => ret nil_header
  | None => ensure_Response ;;; ret false
  end.

Definition EncodeAsProtobuf (nil_header : bool) (m : list byte + error) : M unit :=
  match m with
  | inr err => set_Error (terrors.Wrap (Some err) [])
  | inl b =>
      let* nil_header := ensure_Response nil_header in
      let* '(n, err) := Write chunkThreshold b in
      set_Error (terrors.Wrap err []) ;;;
      Header_Set nil_header "Content-Type" "application/protobuf" ;;;
      set_ContentLength (Z.of_nat n)
  end.

Definition Encode (nil_header : bool) (v : value) : M unit :=
  let* nil_header := ensure_Response nil_header in
  let* adopted :=
    match v_Message v, v_Marshaler v, v_Reader v with
    | None, false, Some s =>
        let* o := load s in
        (if has_Close o
         then set_Body (Some s)
         else
           let* nc := alloc (NopCloser s false) in
           set_Body (Some nc)) ;;;
        set_ContentLength (-1) ;;;
        ret true
    | _, _, _ => ret false
    end in
  if (adopted : bool) then ret tt
  else
    let* r := get_r in
    let acceptsProtobuf :=
      match Request_ r with
      | Some req =>
          Contains (http.Get (ReqHeader req) "Accept") "application/protobuf"
      | None => false
      end in
    match v_Message v, acceptsProtobuf with
    | Some m, true => EncodeAsProtobuf nil_header m
    | _, _ =>
        let* err := json_Encode chunkThreshold v in
        match err with
        | Some e => set_Error (terrors.Wrap (Some e) [])
        | None => Header_Set nil_header "Content-Type" "application/json"
        end
    end.

End Methods.

End NilHeader.

(** The header map of the response is nil; a receiver without response has
    none, and gets an allocated one with the shell. *)
Definition header_is_nil (nil_header : bool) (w : world) : bool :=
  match Response_ (snd w) with
  | Some _ => nil_header
  | None => false
  end.

(** A value that is no message and marshals to [cd]. *)
Definition value_plain : value :=
  mkValue None false None (inl bytes_cd).

(** A body that delivers [ab] and refuses to be read once it is closed. *)
Definition stream_strict : foreign :=
  mkForeign bytes_ab None true false
            (Some (GoError "http: read on closed response body")) None [].

Definition world_strict : world :=
  (<[7%nat := Foreign stream_strict]> ∅,
   mkResponse (Some (response_at 7%nat (-1) ∅)) None None false).



(** Unfolds the monad and the primitive operations in the goal. *)
Ltac run_m :=
  repeat progress
    (unfold ioutil_ReadAll, io_Copy, ReadAll_TeeReader, Close, load,
       object_Write, the_Response, alloc, update_Response, set_Body,
       set_ContentLength, Header_Set, set_Error, bind, ret, panic, get_r,
       put_r, get_store, put_store;
     cbn [fst snd Response_ Error Request_ hijacked with_Response with_Error]).

(** ** Lemmas on machine integers and on the store *)

Lemma int64_in_range z : MinInt64 <= z <= MaxInt64 -> int64 z = z.
Proof.
  unfold int64, MinInt64, MaxInt64. intros H.
  rewrite Z.mod_small by lia. lia.
Qed.

Lemma int64_overflow z : MaxInt64 < z <= 2 * MaxInt64 + 1 -> int64 z = z - 2 ^ 64.
Proof.
  unfold int64, MaxInt64. intros H.
  replace (z + 2 ^ 63) with ((z - 2 ^ 63) + 1 * 2 ^ 64) by lia.
  rewrite Z.mod_add by lia. rewrite Z.mod_small by lia. lia.
Qed.

Lemma extends_refl st : extends st st.
Proof. intros a o H. eauto. Qed.

Lemma extends_trans st1 st2 st3 :
  extends st1 st2 -> extends st2 st3 -> extends st1 st3.
Proof.
  intros H12 H23 a o H.
  destruct (H12 a o H) as (o2 & H2 & E2 & C2).
  destruct (H23 a o2 H2) as (o3 & H3 & E3 & C3).
  exists o3. split; [done |]. split; [congruence | auto].
Qed.

Lemma extends_insert_fresh (st : store) a o :
  st !! a = None -> extends st (<[a := o]> st).
Proof.
  intros Hf b ob Hb. exists ob. split; [| done].
  rewrite lookup_insert_ne; [done | congruence].
Qed.

Lemma extends_closed st st' a :
  extends st st' -> closed_at st a = true -> closed_at st' a = true.
Proof.
  unfold closed_at. intros Hext Hc.
  destruct (st !! a) as [o |] eqn:Ha; [| done].
  destruct (Hext a o Ha) as (o' & -> & _ & Hc'). auto.
Qed.

Lemma extends_insert_same (st : store) a o o' :
  st !! a = Some o -> shape_of o' = shape_of o ->
  (is_closed o = true -> is_closed o' = true) ->
  extends st (<[a := o']> st).
Proof.
  intros Ha Hs Hc b ob Hb. destruct (decide (a = b)) as [<- | Hne].
  - rewrite Ha in Hb. simplify_eq. exists o'. rewrite lookup_insert_eq. done.
  - exists ob. rewrite lookup_insert_ne by done. done.
Qed.

Lemma readable_extends st st' a :
  extends st st' -> readable st a = true -> readable st' a = true.
Proof.
  unfold readable. intros Hext Hr.
  destruct (st !! a) as [o |] eqn:Ha; [| done].
  destruct (Hext a o Ha) as (o' & -> & Hs & _).
  destruct o as [d c | f | i c], o' as [d' c' | f' | i' c']; simplify_eq/=; try done.
  destruct (st !! i) as [oi |] eqn:Hi; [| done].
  destruct (Hext i oi Hi) as (oi' & -> & Hsi & _).
  destruct oi, oi'; simplify_eq/=; done.
Qed.

Lemma fresh_lookup (st : store) : st !! fresh (dom st) = None.
Proof. apply not_elem_of_dom. apply is_fresh. Qed.

Lemma exhaust_closed f : fs_closed (exhaust f) = fs_closed f.
Proof. unfold exhaust. by repeat case_match. Qed.

Lemma read_base_extends st a d e st' :
  read_base st a = Some (d, e, st') -> extends st st'.
Proof.
  unfold read_base. intros H.
  destruct (st !! a) as [[d0 c | f | i c] |] eqn:Ha; simplify_eq;
    eapply extends_insert_same; eauto.
  cbn. by rewrite exhaust_closed.
Qed.

Lemma read_all_extends st a d e st' :
  read_all st a = Some (d, e, st') -> extends st st'.
Proof.
  unfold read_all. intros H.
  destruct (st !! a) as [[d0 c | f | i c] |]; eauto using read_base_extends.
Qed.

Lemma read_all_total st a :
  readable st a = true -> exists d e st', read_all st a = Some (d, e, st').
Proof.
  unfold readable, read_all, read_base. intros H.
  repeat case_match; simplify_eq; eauto.
Qed.

(** Reading in a store with one more object, at an address that was free. *)
Lemma read_base_insert_fresh (st : store) a buf x d e st' :
  st !! buf = None ->
  read_base st a = Some (d, e, st') ->
  read_base (<[buf := x]> st) a = Some (d, e, <[buf := x]> st')
  /\ st' !! buf = None.
Proof.
  unfold read_base. intros Hf H.
  destruct (st !! a) as [o |] eqn:Ha; [| done].
  assert (buf <> a) by congruence.
  rewrite lookup_insert_ne by done. rewrite Ha.
  destruct o as [d0 c | f | i c]; simplify_eq;
    (split; [by rewrite insert_insert_ne by done
            | by rewrite lookup_insert_ne by done]).
Qed.

Lemma read_all_insert_fresh (st : store) a buf x d e st' :
  st !! buf = None ->
  read_all st a = Some (d, e, st') ->
  read_all (<[buf := x]> st) a = Some (d, e, <[buf := x]> st')
  /\ st' !! buf = None.
Proof.
  unfold read_all. intros Hf H.
  destruct (st !! a) as [o |] eqn:Ha.
  - assert (buf <> a) by congruence.
    rewrite lookup_insert_ne by done. rewrite Ha.
    destruct o; eauto using read_base_insert_fresh.
  - unfold read_base in H. rewrite Ha in H. done.
Qed.

(** ** The methods, run on a world *)

Lemma readable_is_Some st a : readable st a = true -> is_Some (st !! a).
Proof. unfold readable. destruct (st !! a); [eauto | done]. Qed.

Lemma extends_is_Some st st' a :
  extends st st' -> is_Some (st !! a) -> is_Some (st' !! a).
Proof. intros Hext [o Ho]. destruct (Hext a o Ho) as (o' & -> & _). eauto. Qed.

Lemma BodyBytes_consume_run st r h body d e st1 o :
  Response_ r = Some h -> http.Body h = Some body ->
  read_all st body = Some (d, e, st1) ->
  st1 !! body = Some o ->
  BodyBytes true (st, r)
  = Returns ((d, e), (<[body := close_object o]> st1, r)).
Proof.
  intros Hr Hb Hra Ho. unfold BodyBytes. run_m.
  rewrite Hr, Hb. run_m. rewrite Hra. run_m. rewrite Ho. done.
Qed.

Lemma is_closed_close_object o : is_closed (close_object o) = true.
Proof. by destruct o. Qed.

Lemma duplicate_run st r h rc d e st1 o1 :
  Response_ r = Some h ->
  read_all st rc = Some (d, e, st1) ->
  st1 !! rc = Some o1 ->
  duplicate (Some rc) (st, r)
  = Returns ((d, e),
             (<[rc := close_object o1]> (<[fresh (dom st) := bufCloser d false]> st1),
              with_Response r (Some (http.with_Body h (Some (fresh (dom st))))))).
Proof.
  intros Hr Hra Ho.
  destruct (read_all_insert_fresh st rc (fresh (dom st)) (bufCloser [] false)
              d e st1 (fresh_lookup st) Hra) as [Hra' Hfresh].
  assert (fresh (dom st) <> rc) as Hne by congruence.
  unfold duplicate. run_m. rewrite Hr. run_m. rewrite Hra'. run_m.
  rewrite lookup_insert_eq. cbn [write_object app]. run_m.
  rewrite insert_insert_eq.
  rewrite lookup_insert_ne by done. rewrite Ho. done.
Qed.

Lemma BodyBytes_view_run st r h rc d c :
  Response_ r = Some h -> http.Body h = Some rc ->
  st !! rc = Some (bufCloser d c) ->
  BodyBytes false (st, r) = Returns ((d, None), (st, r)).
Proof.
  intros Hr Hb Ho. unfold BodyBytes. run_m. rewrite Hr, Hb. run_m.
  rewrite Ho. done.
Qed.

Lemma BodyBytes_duplicate_run st r h rc o :
  Response_ r = Some h -> http.Body h = Some rc ->
  st !! rc = Some o -> is_bufCloser o = false ->
  BodyBytes false (st, r) = duplicate (Some rc) (st, r).
Proof.
  intros Hr Hb Ho Hk. unfold BodyBytes. run_m. rewrite Hr, Hb. run_m.
  rewrite Ho. by destruct o.
Qed.

(** C1: for a response with a non-nil body, two calls of [BodyBytes(false)]
    in a row return the same bytes [d], and after each call the body is a
    Deferred buffer that holds [d], so it can be read again.  When the body
    was already a Deferred buffer the first call changes nothing and returns
    its contents; otherwise [d] is what the foreign stream delivered, the
    new body is a buffer at an address that was free, and the foreign stream
    has been closed. *)
Theorem BodyBytes_false_twice st r h rc :
  Response_ r = Some h ->
  http.Body h = Some rc ->
  readable st rc = true ->
  exists d e w1 buf c,
    BodyBytes false (st, r) = Returns ((d, e), w1)
    /\ BodyBytes false w1 = Returns ((d, None), w1)
    /\ body_of w1 = Some buf
    /\ fst w1 !! buf = Some (bufCloser d c)
    /\ match st !! rc with
       | Some (bufCloser d0 _) => w1 = (st, r) /\ d = d0 /\ e = None /\ buf = rc
       | _ =>
           st !! buf = None
           /\ closed_at (fst w1) rc = true
           /\ exists st1, read_all st rc = Some (d, e, st1)
       end.
Proof.
  intros Hr Hb Hread.
  destruct (readable_is_Some _ _ Hread) as [o Ho].
  destruct (is_bufCloser o) eqn:Hk.
  - destruct o as [d c | |]; try done.
    exists d, None, (st, r), rc, c.
    rewrite (BodyBytes_view_run st r h rc d c) by done.
    unfold body_of. cbn [fst snd]. rewrite Hr, Ho. done.
  - destruct (read_all_total _ _ Hread) as (d & e & st1 & Hra).
    destruct (extends_is_Some st st1 rc) as [o1 Ho1];
      eauto using read_all_extends.
    destruct (read_all_insert_fresh st rc (fresh (dom st)) (bufCloser [] false)
                d e st1 (fresh_lookup st) Hra) as [_ Hfresh].
    assert (fresh (dom st) <> rc) as Hne by congruence.
    eexists d, e, _, (fresh (dom st)), false.
    rewrite (BodyBytes_duplicate_run st r h rc o) by done.
    rewrite (duplicate_run st r h rc d e st1 o1) by done.
    split; [done |].
    assert ((<[rc := close_object o1]> (<[fresh (dom st) := bufCloser d false]> st1)
              : store) !! fresh (dom st) = Some (bufCloser d false)) as Hbuf.
    { rewrite lookup_insert_ne by done. apply lookup_insert_eq. }
    split.
    { eapply BodyBytes_view_run; [done | done | exact Hbuf]. }
    split; [done |]. split; [exact Hbuf |].
    assert (st !! fresh (dom st) = None /\
            closed_at (<[rc := close_object o1]>
                         (<[fresh (dom st) := bufCloser d false]> st1)) rc = true
            /\ exists st1', read_all st rc = Some (d, e, st1')) as Hfin.
    { split; [apply fresh_lookup |]. split; [| eauto].
      unfold closed_at. rewrite lookup_insert_eq. apply is_closed_close_object. }
    rewrite Ho. destruct o; done.
Qed.

Lemma read_base_closed st a d e st' b :
  read_base st a = Some (d, e, st') -> closed_at st' b = closed_at st b.
Proof.
  unfold read_base, closed_at. intros H.
  destruct (st !! a) as [[d0 c | f | i c] |] eqn:Ha; simplify_eq;
    (destruct (decide (a = b)) as [<- | Hne];
     [rewrite lookup_insert_eq, Ha; cbn; auto using exhaust_closed
     | by rewrite lookup_insert_ne by done]).
Qed.

Lemma read_all_closed st a d e st' b :
  read_all st a = Some (d, e, st') -> closed_at st' b = closed_at st b.
Proof.
  unfold read_all. intros H.
  destruct (st !! a) as [[d0 c | f | i c] |]; eauto using read_base_closed.
Qed.

Section Write.

Variable chunkThreshold : Z.

Lemma with_Response_id r h : Response_ r = Some h -> with_Response r (Some h) = r.
Proof. destruct r. cbn. by intros ->. Qed.

Lemma with_ContentLength_id h : http.with_ContentLength h (http.ContentLength h) = h.
Proof. by destruct h. Qed.

Lemma account_run st r h n :
  Response_ r = Some h ->
  account chunkThreshold n (st, r)
  = Returns ((n, None),
             (st, with_Response r
                    (Some (http.with_ContentLength h
                             (accounted chunkThreshold (http.ContentLength h) n))))).
Proof.
  intros Hr. unfold account, accounted. run_m. rewrite Hr. run_m.
  destruct (0 <=? http.ContentLength h).
  - destruct (chunkThreshold <=? _); run_m; rewrite Hr; done.
  - run_m. by rewrite with_ContentLength_id, with_Response_id.
Qed.

(** [Write] when the body implements [io.Writer]. *)
Lemma Write_writer_run st r h rc o b o' n err :
  Response_ r = Some h -> http.Body h = Some rc ->
  st !! rc = Some o -> is_Writer o = true ->
  write_object o b = Some (o', (n, err)) ->
  Write chunkThreshold b (st, r)
  = match err with
    | Some e => Returns ((n, Some e), (<[rc := o']> st, r))
    | None => account chunkThreshold n (<[rc := o']> st, r)
    end.
Proof.
  intros Hr Hb Ho Hw Hwo. unfold Write, ensure_Response. run_m.
  rewrite Hr. run_m. rewrite Hr, Hb. run_m. rewrite Ho, Hw. run_m.
  rewrite Ho, Hwo. run_m. by destruct err.
Qed.

(** [Write] when the body does not implement [io.Writer]. *)
Lemma Write_drain_run st r h rc o b d e st1 o1 :
  Response_ r = Some h -> http.Body h = Some rc ->
  st !! rc = Some o -> is_Writer o = false ->
  read_all st rc = Some (d, e, st1) ->
  st1 !! rc = Some o1 ->
  Write chunkThreshold b (st, r)
  = match e with
    | Some err =>
        Returns ((0%nat, Some err), (<[fresh (dom st) := bufCloser d false]> st1, r))
    | None =>
        account chunkThreshold (length b)
          (<[fresh (dom st) := bufCloser (d ++ b) false]>
             (<[rc := close_object o1]>
                (<[fresh (dom st) := bufCloser d false]> st1)),
           with_Response r (Some (http.with_Body h (Some (fresh (dom st))))))
    end.
Proof.
  intros Hr Hb Ho Hw Hra Ho1.
  destruct (read_all_insert_fresh st rc (fresh (dom st)) (bufCloser [] false)
              d e st1 (fresh_lookup st) Hra) as [Hra' Hfresh].
  assert (fresh (dom st) <> rc) as Hne by congruence.
  unfold Write, ensure_Response. run_m.
  rewrite Hr. run_m. rewrite Hr, Hb. run_m. rewrite Ho, Hw. run_m.
  rewrite Hra'. run_m. rewrite lookup_insert_eq. cbn [write_object app]. run_m.
  rewrite insert_insert_eq. destruct e as [err |]; [done |].
  run_m. rewrite lookup_insert_ne by done. rewrite Ho1. run_m. rewrite Hr. run_m.
  rewrite lookup_insert_ne by done. rewrite lookup_insert_eq.
  cbn [write_object]. run_m. done.
Qed.

(** [Write] when the body is nil. *)
Lemma Write_nil_run st r h b :
  Response_ r = Some h -> http.Body h = None ->
  Write chunkThreshold b (st, r)
  = account chunkThreshold (length b)
      (<[fresh (dom st) := bufCloser b false]> st,
       with_Response r (Some (http.with_Body h (Some (fresh (dom st)))))).
Proof.
  intros Hr Hb. unfold Write, ensure_Response. run_m.
  rewrite Hr. run_m. rewrite Hr, Hb. run_m. rewrite Hr. run_m.
  rewrite lookup_insert_eq. cbn [write_object app]. run_m.
  by rewrite insert_insert_eq.
Qed.

(** [Write] when there is no response yet: the shell is built first. *)
Lemma Write_shell_run st r b :
  Response_ r = None ->
  Write chunkThreshold b (st, r)
  = Write chunkThreshold b
      (<[fresh (dom st) := bufCloser [] false]> st,
       with_Response r
         (Some (http.mkResponse http.StatusOK "" 0 0 0 ∅ (Some (fresh (dom st)))))).
Proof.
  intros Hr. unfold Write, ensure_Response, newHTTPResponse. run_m.
  rewrite Hr. run_m. done.
Qed.

(** C2: when the body is a stream that is not an [io.Writer], [Write(b)]
    reads it to its end into a new Deferred buffer.  If the stream ends
    with [io.EOF], the stream is closed, the buffer becomes the body and
    holds what the stream delivered followed by [b], and the call returns
    [len(b)] and no error.  If the read fails, the call returns a count of
    zero and the read error, the body is still the stream and the stream
    has not been closed. *)
Theorem Write_foreign_drains st r h rc o b d e st1 :
  Response_ r = Some h ->
  http.Body h = Some rc ->
  st !! rc = Some o ->
  is_Writer o = false ->
  read_all st rc = Some (d, e, st1) ->
  match e with
  | None =>
      exists st' r' o1,
        Write chunkThreshold b (st, r) = Returns ((length b, None), (st', r'))
        /\ st !! fresh (dom st) = None
        /\ body_of (st', r') = Some (fresh (dom st))
        /\ st' !! fresh (dom st) = Some (bufCloser (d ++ b) false)
        /\ st1 !! rc = Some o1
        /\ st' !! rc = Some (close_object o1)
        /\ closed_at st' rc = true
  | Some err =>
      exists st',
        Write chunkThreshold b (st, r) = Returns ((0%nat, Some err), (st', r))
        /\ body_of (st', r) = Some rc
        /\ closed_at st' rc = closed_at st rc
  end.
Proof.
  intros Hr Hb Ho Hw Hra.
  destruct (extends_is_Some st st1 rc) as [o1 Ho1];
    eauto using read_all_extends.
  destruct (read_all_insert_fresh st rc (fresh (dom st)) (bufCloser [] false)
              d e st1 (fresh_lookup st) Hra) as [_ Hfresh].
  assert (fresh (dom st) <> rc) as Hne by congruence.
  rewrite (Write_drain_run st r h rc o b d e st1 o1) by done.
  destruct e as [err |].
  - eexists. split; [done |]. split.
    + unfold body_of. cbn [fst snd]. by rewrite Hr.
    + unfold closed_at. rewrite lookup_insert_ne by done.
      apply (read_all_closed st rc d (Some err) st1 rc Hra).
  - erewrite account_run by reflexivity. do 3 eexists. split; [done |].
    split; [apply fresh_lookup |]. split; [done |].
    split; [apply lookup_insert_eq |]. split; [exact Ho1 |].
    assert (forall x : object,
              (<[fresh (dom st) := x]>
                 (<[rc := close_object o1]>
                    (<[fresh (dom st) := bufCloser d false]> st1)) : store) !! rc
              = Some (close_object o1)) as Hrc.
    { intros x. rewrite lookup_insert_ne by done. apply lookup_insert_eq. }
    split; [apply Hrc |].
    unfold closed_at. rewrite Hrc. apply is_closed_close_object.
Qed.

End Write.

Lemma shape_of_close_object o : shape_of (close_object o) = shape_of o.
Proof. by destruct o. Qed.

Lemma write_object_shape o b o' res :
  write_object o b = Some (o', res) ->
  shape_of o' = shape_of o /\ is_closed o' = is_closed o.
Proof.
  destruct o as [d c | f | i c]; cbn; intros H; simplify_eq; [done |].
  destruct (fs_sink f) as [[room e] |]; simplify_eq.
  unfold sink_foreign. by case_match.
Qed.

(** A writer that reports no error has taken all the bytes. *)
Lemma write_object_count o b o' n :
  write_object o b = Some (o', (n, None)) -> n = length b.
Proof.
  destruct o as [d c | f | i c]; cbn; intros H; simplify_eq; [done |].
  destruct (fs_sink f) as [[room e] |]; simplify_eq.
  unfold sink_foreign in *. by case_match; simplify_eq/=.
Qed.

Lemma write_object_writer o b :
  is_Writer o = true -> exists o' n err, write_object o b = Some (o', (n, err)).
Proof.
  destruct o as [d c | f | i c]; cbn; intros H; try done; [eauto |].
  destruct (fs_sink f) as [[room e] |]; [| done].
  destruct (sink_foreign f room e b) as [f' [n err]]. eauto.
Qed.

Lemma readable_bufCloser (st : store) a d c :
  st !! a = Some (bufCloser d c) -> readable st a = true.
Proof. unfold readable. by intros ->. Qed.

Section Frame.

Variable chunkThreshold : Z.

(** The outcome of [Write] on a well-formed world whose receiver has a
    response: the call returns, leaves the headers, the error and the
    request as they were, and accounts for the bytes it wrote. *)
Lemma Write_spec st r h b :
  Response_ r = Some h ->
  well_formed (st, r) = true ->
  exists n err w',
    Write chunkThreshold b (st, r) = Returns ((n, err), w')
    /\ Write_post chunkThreshold st r h b n err w'.
Proof.
  intros Hr Hwf. destruct (http.Body h) as [rc |] eqn:Hb.
  - assert (readable st rc = true) as Hread0.
    { revert Hwf. unfold well_formed, body_of. cbn [fst snd]. by rewrite Hr, Hb. }
    destruct (readable_is_Some _ _ Hread0) as [o Ho].
    destruct (is_Writer o) eqn:Hw.
    + destruct (write_object_writer o b Hw) as (o' & n & err & Hwo).
      destruct (write_object_shape _ _ _ _ Hwo) as [Hshape Hclosed].
      assert (extends st (<[rc := o']> st)) as Hext.
      { eapply extends_insert_same; [exact Ho | exact Hshape | by rewrite Hclosed]. }
      assert (readable (<[rc := o']> st) rc = true) as Hread
          by eauto using readable_extends.
      rewrite (Write_writer_run chunkThreshold st r h rc o b o' n err) by done.
      destruct err as [e |].
      * do 3 eexists. split; [done |]. exists h.
        unfold well_formed, body_of. cbn [fst snd]. rewrite Hr, Hb. done.
      * erewrite account_run by exact Hr. do 3 eexists. split; [done |].
        eexists. unfold well_formed, body_of. destruct r. cbn in *.
        rewrite Hb.
        pose proof (write_object_count _ _ _ _ Hwo). subst n. done.
    + destruct (read_all_total _ _ Hread0) as (d & e & st1 & Hra).
      pose proof (read_all_extends _ _ _ _ _ Hra) as Hext1.
      destruct (extends_is_Some st st1 rc) as [o1 Ho1]; eauto.
      destruct (read_all_insert_fresh st rc (fresh (dom st)) (bufCloser [] false)
                  d e st1 (fresh_lookup st) Hra) as [_ Hfresh].
      assert (fresh (dom st) <> rc) as Hne by congruence.
      assert (extends st (<[fresh (dom st) := bufCloser d false]> st1)) as Hext2.
      { eapply extends_trans; [exact Hext1 |]. by apply extends_insert_fresh. }
      rewrite (Write_drain_run chunkThreshold st r h rc o b d e st1 o1) by done.
      destruct e as [err |].
      * do 3 eexists. split; [done |].
        exists h. cbn [fst snd]. repeat (split; [done |]).
        split; [| done]. unfold well_formed, body_of. cbn [fst snd].
        rewrite Hr, Hb. eauto using readable_extends.
      * erewrite account_run by reflexivity. do 3 eexists. split; [done |].
        eexists. destruct r; cbn in *. repeat (split; [done |]).
        split; [| split; [| done]].
        -- eapply extends_trans; [exact Hext2 |].
           eapply extends_trans.
           ++ eapply (extends_insert_same _ rc o1 (close_object o1)).
              ** by rewrite lookup_insert_ne by done.
              ** apply shape_of_close_object.
              ** intros _. apply is_closed_close_object.
           ++ eapply (extends_insert_same _ _ (bufCloser d false)); [| done..].
              rewrite lookup_insert_ne by done. apply lookup_insert_eq.
        -- unfold well_formed, body_of. cbn.
           eapply readable_bufCloser. apply lookup_insert_eq.
  - rewrite (Write_nil_run chunkThreshold st r h b) by done.
    erewrite account_run by reflexivity. do 3 eexists. split; [done |].
    eexists. destruct r; cbn in *. repeat (split; [done |]).
    split; [| split; [| done]].
    + apply extends_insert_fresh, fresh_lookup.
    + unfold well_formed, body_of. cbn.
      eapply readable_bufCloser. apply lookup_insert_eq.
Qed.

End Frame.

Section Accounting.

Variable chunkThreshold : Z.

(** [Write] on any well-formed world: it returns, the world stays well
    formed, the headers, the error and the request are as before, and the
    content length is the accounted one when no error is returned. *)
Lemma Write_returns w b :
  well_formed w = true ->
  exists n err w',
    Write chunkThreshold b w = Returns ((n, err), w')
    /\ well_formed w' = true
    /\ extends (fst w) (fst w')
    /\ headers_of w' = headers_of w
    /\ Error (snd w') = Error (snd w)
    /\ Request_ (snd w') = Request_ (snd w)
    /\ match err with
       | Some _ => content_length w' = Some (length_before w)
       | None =>
           n = length b
           /\ content_length w'
              = Some (accounted chunkThreshold (length_before w) (length b))
       end.
Proof.
  destruct w as [st r]. intros Hwf.
  destruct (Response_ r) as [h |] eqn:Hr.
  - destruct (Write_spec chunkThreshold st r h b Hr Hwf)
      as (n & err & w' & Hrun & h' & Hr' & Hh & He & Hq & Hext & Hwf' & Hcl).
    exists n, err, w'. split; [done |].
    unfold headers_of, content_length, length_before, content_length.
    cbn [fst snd]. rewrite Hr, Hr'.
    repeat (split; [done |]).
    destruct err; [by rewrite Hcl | by destruct Hcl as [-> ->]].
  - rewrite Write_shell_run by done.
    set (st0 := <[fresh (dom st) := bufCloser [] false]> st).
    set (h0 := http.mkResponse http.StatusOK "" 0 0 0 ∅ (Some (fresh (dom st)))).
    assert (well_formed (st0, with_Response r (Some h0)) = true) as Hwf0.
    { unfold well_formed, body_of. cbn.
      eapply readable_bufCloser. apply lookup_insert_eq. }
    destruct (Write_spec chunkThreshold st0 (with_Response r (Some h0)) h0 b
                eq_refl Hwf0)
      as (n & err & w' & Hrun & h' & Hr' & Hh & He & Hq & Hext & Hwf' & Hcl).
    exists n, err, w'. split; [done |].
    unfold headers_of, content_length, length_before, content_length.
    cbn [fst snd]. rewrite Hr, Hr'.
    split; [done |]. split.
    { eapply extends_trans; [| exact Hext].
      apply extends_insert_fresh, fresh_lookup. }
    repeat (split; [done |]).
    destruct err; [by rewrite Hcl | by destruct Hcl as [-> ->]].
Qed.

Lemma accounted_unknown c n : c < 0 -> accounted chunkThreshold c n = c.
Proof.
  unfold accounted. intros H. destruct (0 <=? c) eqn:E; [lia | done].
Qed.

Lemma accounted_below l n :
  0 <= l -> l + Z.of_nat n <= MaxInt64 -> l + Z.of_nat n < chunkThreshold ->
  accounted chunkThreshold l n = l + Z.of_nat n.
Proof.
  unfold accounted. intros H0 Hmax Hlt.
  rewrite int64_in_range by (unfold MinInt64, MaxInt64 in *; lia).
  destruct (0 <=? l) eqn:E; [| lia].
  destruct (chunkThreshold <=? l + Z.of_nat n) eqn:E'; lia.
Qed.

Lemma accounted_crossing l n :
  0 <= l -> l + Z.of_nat n <= MaxInt64 -> chunkThreshold <= l + Z.of_nat n ->
  accounted chunkThreshold l n = -1.
Proof.
  unfold accounted. intros H0 Hmax Hge.
  rewrite int64_in_range by (unfold MinInt64, MaxInt64 in *; lia).
  destruct (0 <=? l) eqn:E; [| lia].
  destruct (chunkThreshold <=? l + Z.of_nat n) eqn:E'; lia.
Qed.

Lemma accounted_crossing_negative l n :
  0 <= l <= MaxInt64 -> Z.of_nat n <= MaxInt64 ->
  chunkThreshold <= l + Z.of_nat n ->
  accounted chunkThreshold l n < 0.
Proof.
  unfold accounted. intros Hl Hn Hge.
  destruct (0 <=? l) eqn:E; [| lia].
  destruct (Z_le_gt_dec (l + Z.of_nat n) MaxInt64) as [Hfit | Hover].
  - rewrite int64_in_range by (unfold MinInt64, MaxInt64 in *; lia).
    destruct (chunkThreshold <=? l + Z.of_nat n) eqn:E'; lia.
  - rewrite int64_overflow by lia.
    destruct (chunkThreshold <=? _); unfold MaxInt64 in *; lia.
Qed.

(** Once the content length is negative, no run of calls of [Write]
    changes it. *)
Lemma Writes_keep_unknown bs : forall w c,
  well_formed w = true ->
  content_length w = Some c -> c < 0 ->
  exists w',
    Writes chunkThreshold bs w = Returns (tt, w')
    /\ content_length w' = Some c.
Proof.
  induction bs as [| b bs IH]; intros w c Hwf Hcl Hc.
  - exists w. done.
  - destruct (Write_returns w b Hwf)
      as (n & err & w1 & Hrun & Hwf1 & _ & _ & _ & _ & Hcl1).
    assert (content_length w1 = Some c) as Hc1.
    { unfold length_before in Hcl1. rewrite Hcl in Hcl1.
      destruct err; [done |]. destruct Hcl1 as [_ ->].
      by rewrite accounted_unknown. }
    destruct (IH w1 c Hwf1 Hc1 Hc) as (w' & Hruns & Hcl').
    exists w'. split; [| done].
    cbn [Writes]. unfold bind. by rewrite Hrun.
Qed.

(** C3, as amended: on a response with known content length [L >= 0], a
    call of [Write(B)] that returns no error has written [len(B)] bytes.
    While [L + len(B)] fits an [int64], the content length becomes
    [L + len(B)] when that is below the chunk threshold and [-1] when it
    reaches the threshold.  Whenever the running total reaches the
    threshold the content length becomes negative, and no later run of
    calls of [Write] changes it. *)
Theorem Write_content_length w L b n w' :
  well_formed w = true ->
  content_length w = Some L ->
  0 <= L <= MaxInt64 ->
  Z.of_nat (length b) <= MaxInt64 ->
  Write chunkThreshold b w = Returns ((n, None), w') ->
  n = length b
  /\ (L + Z.of_nat (length b) <= MaxInt64 ->
      L + Z.of_nat (length b) < chunkThreshold ->
      content_length w' = Some (L + Z.of_nat (length b)))
  /\ (L + Z.of_nat (length b) <= MaxInt64 ->
      chunkThreshold <= L + Z.of_nat (length b) ->
      content_length w' = Some (-1))
  /\ (chunkThreshold <= L + Z.of_nat (length b) ->
      exists c,
        content_length w' = Some c /\ c < 0
        /\ forall bs, exists w'',
             Writes chunkThreshold bs w' = Returns (tt, w'')
             /\ content_length w'' = Some c).
Proof.
  intros Hwf HL Hrange Hlen Hrun.
  destruct (Write_returns w b Hwf)
    as (n0 & err & w1 & Hrun1 & Hwf1 & _ & _ & _ & _ & Hcl1).
  rewrite Hrun in Hrun1. simplify_eq.
  destruct Hcl1 as [-> Hcl1]. unfold length_before in Hcl1. rewrite HL in Hcl1.
  split; [done |]. split; [| split].
  - intros Hfit Hlt. rewrite Hcl1. f_equal. apply accounted_below; lia.
  - intros Hfit Hge. rewrite Hcl1. f_equal. apply accounted_crossing; lia.
  - intros Hge. eexists. split; [exact Hcl1 |].
    pose proof (accounted_crossing_negative L (length b) Hrange Hlen Hge) as Hneg.
    split; [done |]. intros bs.
    by apply Writes_keep_unknown.
Qed.

End Accounting.

(** ** Decode *)

(** C4: on a response whose error is set, [Decode] leaves the store and the
    receiver as they are, so the body is not read.  When the context of the
    request carries a non-empty string under [WrapDownstreamErrors{}] the
    call returns an internal error with the sub-code [downstream] whose cause
    is the recorded error; in every other case it returns the recorded
    error itself. *)
Theorem Decode_recorded_error st r e v :
  Error r = Some e ->
  (forall req s,
      Request_ r = Some req ->
      Context req = Some (Some (CtxString s)) ->
      s <> ""%string ->
      Decode v (st, r)
      = Returns (Some (TError "internal_service.downstream"
                              "Downstream request error" [] (Some e)),
                 (st, r)))
  /\ ((forall req s,
          Request_ r = Some req ->
          Context req = Some (Some (CtxString s)) ->
          s = ""%string) ->
      Decode v (st, r) = Returns (Some e, (st, r))).
Proof.
  intros He. split.
  - intros req s Hq Hc Hs. unfold Decode, wraps_downstream. run_m.
    rewrite He, Hq, Hc. destruct (String.eqb_spec s ""); done.
  - intros Hno. unfold Decode, wraps_downstream. run_m. rewrite He.
    destruct (Request_ r) as [req |]; [| done].
    destruct (Context req) as [[[s |] |] |] eqn:Hc; try done.
    rewrite (Hno req s eq_refl Hc). done.
Qed.

(** [Decode] on a response without error whose body is read to its end
    without error, up to the dispatch on the content type. *)
Lemma Decode_run st r h body d st1 o v :
  Error r = None ->
  Response_ r = Some h -> http.Body h = Some body ->
  read_all st body = Some (d, None, st1) ->
  st1 !! body = Some o ->
  Decode v (st, r)
  = if binary_media_type (http.Get (http.Header h) "Content-Type")
    then
      if t_Message v
      then
        match t_proto_Unmarshal v d with
        | Some e =>
            Returns (Some e, (<[body := close_object o]> st1, with_Error r (Some e)))
        | None => Returns (None, (<[body := close_object o]> st1, r))
        end
      else
        Returns (Some (terrors.InternalService "invalid_type"
                         "could not decode proto message" []),
                 (<[body := close_object o]> st1, r))
    else
      match t_json_Unmarshal v d with
      | Some e =>
          Returns (Some e, (<[body := close_object o]> st1, with_Error r (Some e)))
      | None => Returns (None, (<[body := close_object o]> st1, r))
      end.
Proof.
  intros He Hr Hb Hra Ho. unfold Decode. run_m. rewrite He, Hr.
  rewrite (BodyBytes_consume_run st r h body d None st1 o) by done.
  run_m. rewrite Hr. run_m.
  destruct (binary_media_type _).
  - destruct (t_Message v); [| done].
    run_m. by destruct (t_proto_Unmarshal v d).
  - run_m. by destruct (t_json_Unmarshal v d).
Qed.

(** The sibling paths: an error of either codec is stored in the error
    field before it is returned. *)
Lemma Decode_codec_error_recorded st r h body d st1 o v e w' :
  Error r = None ->
  Response_ r = Some h -> http.Body h = Some body ->
  read_all st body = Some (d, None, st1) ->
  st1 !! body = Some o ->
  (binary_media_type (http.Get (http.Header h) "Content-Type") = true ->
   t_Message v = true) ->
  Decode v (st, r) = Returns (Some e, w') ->
  Error (snd w') = Some e.
Proof.
  intros He Hr Hb Hra Ho Hm.
  rewrite (Decode_run st r h body d st1 o) by done.
  destruct (binary_media_type _).
  - rewrite Hm by done. destruct (t_proto_Unmarshal v d); intros; by simplify_eq.
  - destruct (t_json_Unmarshal v d); intros; by simplify_eq.
Qed.

(** The path of the type mismatch returns its error and leaves the error
    field nil. *)
Lemma Decode_type_mismatch_run st r h body d st1 o v :
  Error r = None ->
  Response_ r = Some h -> http.Body h = Some body ->
  read_all st body = Some (d, None, st1) ->
  st1 !! body = Some o ->
  binary_media_type (http.Get (http.Header h) "Content-Type") = true ->
  t_Message v = false ->
  Decode v (st, r)
  = Returns (Some (terrors.InternalService "invalid_type"
                     "could not decode proto message" []),
             (<[body := close_object o]> st1, r)).
Proof.
  intros He Hr Hb Hra Ho Hct Hm.
  rewrite (Decode_run st r h body d st1 o) by done.
  by rewrite Hct, Hm.
Qed.

(** ** Encode and EncodeAsProtobuf *)

Section Encode.

Variable chunkThreshold : Z.

Lemma ensure_Response_run w : ensure_Response w = Returns (tt, ensured w).
Proof.
  destruct w as [st r]. unfold ensure_Response, ensured, newHTTPResponse.
  run_m. destruct (Response_ r) eqn:Hr; run_m; done.
Qed.

Lemma ensured_Response w : is_Some (Response_ (snd (ensured w))).
Proof.
  destruct w as [st r]. unfold ensured. cbn [fst snd].
  destruct (Response_ r) eqn:Hr; cbn; eauto.
Qed.

Lemma ensured_frame w :
  headers_of (ensured w) = headers_of w
  /\ Error (snd (ensured w)) = Error (snd w)
  /\ Request_ (snd (ensured w)) = Request_ (snd w)
  /\ length_before (ensured w) = length_before w.
Proof.
  destruct w as [st r].
  unfold ensured, headers_of, length_before, content_length. cbn [fst snd].
  by destruct (Response_ r) eqn:Hr; cbn; rewrite ?Hr.
Qed.

Lemma ensured_extends w : extends (fst w) (fst (ensured w)).
Proof.
  destruct w as [st r]. unfold ensured. cbn [fst snd].
  destruct (Response_ r); cbn [fst].
  - apply extends_refl.
  - apply extends_insert_fresh, fresh_lookup.
Qed.

Lemma ensured_well_formed w : well_formed w = true -> well_formed (ensured w) = true.
Proof.
  destruct w as [st r]. unfold ensured. cbn [fst snd].
  destruct (Response_ r) eqn:Hr; [done |]. intros _.
  unfold well_formed, body_of. cbn.
  eapply readable_bufCloser. apply lookup_insert_eq.
Qed.

Lemma ensured_lookup w s o :
  fst w !! s = Some o -> fst (ensured w) !! s = Some o.
Proof.
  destruct w as [st r]. unfold ensured. cbn [fst snd]. intros Ho.
  destruct (Response_ r); cbn [fst]; [done |].
  rewrite lookup_insert_ne; [done |].
  intros E. pose proof (fresh_lookup st) as Hf. rewrite E in Hf. congruence.
Qed.

Lemma ensured_free w a :
  fst (ensured w) !! a = None -> fst w !! a = None.
Proof.
  destruct (fst w !! a) as [o |] eqn:Ho; [| done].
  rewrite (ensured_lookup w a o Ho). done.
Qed.

(** Reading a stream of the world gives the same in the ensured world. *)
Lemma ensured_read_all w s d e st1 :
  read_all (fst w) s = Some (d, e, st1) ->
  exists st1', read_all (fst (ensured w)) s = Some (d, e, st1').
Proof.
  destruct w as [st r]. unfold ensured. cbn [fst snd]. intros Hra.
  destruct (Response_ r); cbn [fst]; [eauto |].
  eexists. eapply read_all_insert_fresh; [apply fresh_lookup | exact Hra].
Qed.

(** [Encode] of a stream that is neither a message nor a marshaler, on a
    receiver that has a response. *)
Lemma Encode_stream_run st r h v s o :
  Response_ r = Some h ->
  v_Message v = None -> v_Marshaler v = false -> v_Reader v = Some s ->
  st !! s = Some o ->
  Encode chunkThreshold v (st, r)
  = if has_Close o
    then
      Returns (tt, (st, with_Response r
                          (Some (http.with_ContentLength
                                   (http.with_Body h (Some s)) (-1)))))
    else
      Returns (tt, (<[fresh (dom st) := NopCloser s false]> st,
                    with_Response r
                      (Some (http.with_ContentLength
                               (http.with_Body h (Some (fresh (dom st)))) (-1))))).
Proof.
  intros Hr Hm Hj Hs Ho. unfold Encode.
  unfold bind at 1. rewrite ensure_Response_run.
  unfold ensured. cbn [fst snd]. rewrite Hr, Hm, Hj, Hs.
  run_m. rewrite Ho. destruct (has_Close o); run_m; rewrite Hr; done.
Qed.

Lemma read_through_NopCloser (st : store) nc s c o d e st1 :
  st !! nc = None ->
  st !! s = Some o -> has_Close o = false ->
  read_all st s = Some (d, e, st1) ->
  exists st2, read_all (<[nc := NopCloser s c]> st) nc = Some (d, e, st2).
Proof.
  intros Hnc Ho Hclose Hra.
  destruct o as [d0 c0 | f | i c0]; try done.
  unfold read_all in *. rewrite lookup_insert_eq. rewrite Ho in Hra.
  eexists. eapply read_base_insert_fresh; [exact Hnc | exact Hra].
Qed.

(** C6: a value that is a stream and neither a message nor a JSON marshaler
    becomes the body as it is when it has a [Close] method, and wrapped in a
    new no-op closer when it has none.  The content length is [-1], the
    headers and the error field are as before, nothing is written or
    encoded, and reading the body to its end then delivers exactly what
    reading the stream would have delivered. *)
Theorem Encode_stream st r v s o :
  v_Message v = None ->
  v_Marshaler v = false ->
  v_Reader v = Some s ->
  st !! s = Some o ->
  readable st s = true ->
  exists w' body d e st1 st2,
    Encode chunkThreshold v (st, r) = Returns (tt, w')
    /\ body_of w' = Some body
    /\ (if has_Close o
        then body = s
        else st !! body = None /\ fst w' !! body = Some (NopCloser s false))
    /\ content_length w' = Some (-1)
    /\ headers_of w' = headers_of (st, r)
    /\ Error (snd w') = Error r
    /\ read_all st s = Some (d, e, st1)
    /\ read_all (fst w') body = Some (d, e, st2).
Proof.
  intros Hm Hj Hs Ho Hread.
  destruct (read_all_total _ _ Hread) as (d & e & st1 & Hra).
  assert (Encode chunkThreshold v (st, r)
          = Encode chunkThreshold v (ensured (st, r))) as ->.
  { unfold Encode, bind. rewrite !ensure_Response_run.
    unfold ensured at 2. by destruct (ensured_Response (st, r)) as [h0 ->]. }
  destruct (ensured_Response (st, r)) as [h0 Hr0].
  destruct (ensured_frame (st, r)) as (Hhd & Herr & _ & _).
  pose proof (ensured_lookup (st, r) s o Ho) as Ho0.
  pose proof (ensured_free (st, r)) as Hfree.
  destruct (ensured_read_all (st, r) s d e st1 Hra) as [st1' Hra0].
  destruct (ensured (st, r)) as [st0 r0]. cbn [fst snd] in *.
  rewrite <- Hhd, <- Herr.
  rewrite (Encode_stream_run st0 r0 h0 v s o) by done.
  destruct (has_Close o) eqn:Hclose.
  - do 2 eexists. exists d, e, st1, st1'. split; [done |].
    unfold body_of, content_length, headers_of. cbn. by rewrite Hr0.
  - destruct (read_through_NopCloser st0 (fresh (dom st0)) s false o d e st1'
                (fresh_lookup st0) Ho0 Hclose Hra0) as [st2 Hra2].
    do 2 eexists. exists d, e, st1, st2. split; [done |].
    unfold body_of, content_length, headers_of. cbn. rewrite Hr0.
    split; [done |]. split.
    { split; [apply Hfree, fresh_lookup | apply lookup_insert_eq]. }
    done.
Qed.

End Encode.


Lemma Wrap_nil params : terrors.Wrap None params = None.
Proof. done. Qed.

Lemma Wrap_error e params : is_Some (terrors.Wrap (Some e) params).
Proof. destruct e; cbn; eauto. Qed.

Section Negotiation.

Variable chunkThreshold : Z.

Lemma EncodeAsProtobuf_run w b n err w1 h1 :
  Write chunkThreshold b w = Returns ((n, err), w1) ->
  Response_ (snd w1) = Some h1 ->
  EncodeAsProtobuf chunkThreshold (inl b) w
  = Returns (tt,
      (fst w1,
       mkResponse
         (Some (http.with_ContentLength
                  (http.with_Header h1
                     (http.Set_ (http.Header h1) "Content-Type"
                                "application/protobuf"))
                  (Z.of_nat n)))
         (terrors.Wrap err []) (Request_ (snd w1)) (hijacked (snd w1)))).
Proof.
  intros Hrun Hr1. unfold EncodeAsProtobuf. unfold bind at 1. rewrite Hrun.
  destruct w1 as [st1 r1]. cbn [fst snd] in *. run_m. rewrite Hr1. done.
Qed.

Lemma Write_leaves_Response w b res w1 :
  well_formed w = true ->
  Write chunkThreshold b w = Returns (res, w1) ->
  exists h1, Response_ (snd w1) = Some h1
             /\ http.Header h1 = headers_of w
             /\ well_formed w1 = true.
Proof.
  intros Hwf Hrun.
  destruct (Write_returns chunkThreshold w b Hwf)
    as (n & err & w' & Hrun' & Hwf' & _ & Hhd & _ & _ & Hcl).
  rewrite Hrun in Hrun'. simplify_eq.
  unfold headers_of in Hhd at 1. unfold content_length in Hcl.
  destruct (Response_ (snd w')) as [h1 |]; [eauto |].
  destruct err; [done | by destruct Hcl].
Qed.



End Negotiation.

Section Json.

Variable chunkThreshold : Z.

Lemma Encode_ensured v w :
  Encode chunkThreshold v w = Encode chunkThreshold v (ensured w).
Proof.
  unfold Encode, bind. rewrite !ensure_Response_run.
  unfold ensured at 2. by destruct (ensured_Response w) as [h0 ->].
Qed.

(** [Encode] of a value that is not adopted as a stream. *)
Lemma Encode_not_adopted_run v w :
  adopted_as_stream v = false ->
  Encode chunkThreshold v w
  = match v_Message v, acceptsProtobuf (snd w) with
    | Some m, true => EncodeAsProtobuf chunkThreshold m (ensured w)
    | _, _ =>
        match json_Encode chunkThreshold v (ensured w) with
        | Returns (Some e, w1) =>
            Returns (tt, (fst w1, with_Error (snd w1) (terrors.Wrap (Some e) [])))
        | Returns (None, w1) =>
            Header_Set "Content-Type" "application/json" w1
        | Panics => Panics
        end
    end.
Proof.
  intros Hna. destruct (ensured_frame w) as (_ & _ & Hq & _).
  unfold Encode. unfold bind at 1. rewrite ensure_Response_run.
  unfold acceptsProtobuf. rewrite <- Hq.
  assert ((match v_Message v, v_Marshaler v, v_Reader v with
           | None, false, Some s =>
               let* o := load s in
               (if has_Close o
                then set_Body (Some s)
                else let* nc := alloc (NopCloser s false) in set_Body (Some nc)) ;;;
               set_ContentLength (-1) ;;; ret true
           | _, _, _ => ret false
           end) = ret false) as ->.
  { revert Hna. unfold adopted_as_stream.
    by destruct (v_Message v), (v_Marshaler v), (v_Reader v). }
  destruct (ensured w) as [st0 r0]. run_m.
  repeat (case_match; simplify_eq; try done).
Qed.

Lemma json_Encode_returns v w :
  well_formed w = true ->
  exists err w1,
    json_Encode chunkThreshold v w = Returns (err, w1)
    /\ well_formed w1 = true
    /\ headers_of w1 = headers_of w
    /\ Error (snd w1) = Error (snd w)
    /\ (is_Some (Response_ (snd w)) -> is_Some (Response_ (snd w1))).
Proof.
  intros Hwf. unfold json_Encode. destruct (v_json v) as [b | e].
  - destruct (Write_returns chunkThreshold w (b ++ [newline]) Hwf)
      as (n & err & w1 & Hrun & Hwf1 & _ & Hhd & He & _ & _).
    destruct (Write_leaves_Response chunkThreshold w _ _ w1 Hwf Hrun)
      as (h1 & Hr1 & _).
    exists err, w1. unfold bind. rewrite Hrun. rewrite Hr1. eauto 10.
  - exists (Some e), w. eauto 10.
Qed.

Lemma EncodeAsProtobuf_returns m w :
  well_formed w = true ->
  exists w2, EncodeAsProtobuf chunkThreshold m w = Returns (tt, w2).
Proof.
  intros Hwf. destruct m as [b | e].
  - destruct (Write_returns chunkThreshold w b Hwf)
      as (n & err & w1 & Hrun & _).
    destruct (Write_leaves_Response chunkThreshold w _ _ w1 Hwf Hrun)
      as (h1 & Hr1 & _).
    rewrite (EncodeAsProtobuf_run chunkThreshold w b n err w1 h1) by done. eauto.
  - destruct w as [st r]. eexists. done.
Qed.

Lemma Header_Set_run w h key value :
  Response_ (snd w) = Some h ->
  Header_Set key value w
  = Returns (tt, (fst w,
                  with_Response (snd w)
                    (Some (http.with_Header h (http.Set_ (http.Header h) key value))))).
Proof. destruct w as [st r]. cbn [fst snd]. intros Hr. run_m. by rewrite Hr. Qed.

Lemma Write_ensured b w :
  Write chunkThreshold b (ensured w) = Write chunkThreshold b w.
Proof.
  unfold Write, bind. rewrite !ensure_Response_run.
  unfold ensured at 1. by destruct (ensured_Response w) as [h0 ->].
Qed.

(** [Encode] on the path of the structured-text codec, by what marshalling
    and [Write] return. *)
Lemma Encode_json_run v w :
  takes_json_path v (snd w) = true ->
  Encode chunkThreshold v w
  = match v_json v with
    | inr e =>
        Returns (tt, (fst (ensured w),
                      with_Error (snd (ensured w)) (terrors.Wrap (Some e) [])))
    | inl j =>
        match Write chunkThreshold (j ++ [newline]) (ensured w) with
        | Returns ((_, Some e), w1) =>
            Returns (tt, (fst w1, with_Error (snd w1) (terrors.Wrap (Some e) [])))
        | Returns ((_, None), w1) =>
            Header_Set "Content-Type" "application/json" w1
        | Panics => Panics
        end
    end.
Proof.
  unfold takes_json_path. intros Hpath.
  apply andb_prop in Hpath as [Hna Hnp].
  apply negb_true_iff in Hna. apply negb_true_iff in Hnp.
  rewrite Encode_not_adopted_run by done.
  assert (match v_Message v, acceptsProtobuf (snd w) with
          | Some m, true => EncodeAsProtobuf chunkThreshold m (ensured w)
          | _, _ =>
              match json_Encode chunkThreshold v (ensured w) with
              | Returns (Some e, w1) =>
                  Returns (tt, (fst w1,
                                with_Error (snd w1) (terrors.Wrap (Some e) [])))
              | Returns (None, w1) =>
                  Header_Set "Content-Type" "application/json" w1
              | Panics => Panics
              end
          end
          = match json_Encode chunkThreshold v (ensured w) with
            | Returns (Some e, w1) =>
                Returns (tt, (fst w1,
                              with_Error (snd w1) (terrors.Wrap (Some e) [])))
            | Returns (None, w1) =>
                Header_Set "Content-Type" "application/json" w1
            | Panics => Panics
            end) as ->.
  { destruct (v_Message v); [by rewrite Hnp | done]. }
  unfold json_Encode. destruct (v_json v) as [j | e]; [| done].
  unfold bind, ret.
  by destruct (Write chunkThreshold (j ++ [newline]) (ensured w))
    as [[[n [e |]] w1] |].
Qed.

(** [Encode] returns on every well-formed world, when the header map is
    taken to be allocated. *)
Lemma Encode_returns w v :
  well_formed w = true ->
  value_ok (fst w) v = true ->
  exists w', Encode chunkThreshold v w = Returns (tt, w').
Proof.
  intros Hwf Hv.
  pose proof (ensured_well_formed w Hwf) as Hwf0.
  destruct (adopted_as_stream v) eqn:Hna.
  - unfold adopted_as_stream in Hna.
    destruct (v_Message v) eqn:Hm; [done |].
    destruct (v_Marshaler v) eqn:Hj; [done |].
    destruct (v_Reader v) as [s |] eqn:Hs; [| done].
    unfold value_ok in Hv. rewrite Hs in Hv.
    destruct (readable_is_Some _ _ Hv) as [o Ho].
    pose proof (ensured_lookup w s o Ho) as Ho0.
    destruct (ensured_Response w) as [h0 Hr0].
    rewrite Encode_ensured. destruct (ensured w) as [st0 r0].
    rewrite (Encode_stream_run chunkThreshold st0 r0 h0 v s o) by done.
    destruct (has_Close o); eauto.
  - destruct (takes_json_path v (snd w)) eqn:Hpath.
    + rewrite Encode_json_run by done.
      destruct (v_json v) as [j | e]; [| eauto].
      destruct (Write_returns chunkThreshold (ensured w) (j ++ [newline]) Hwf0)
        as (n & err & w1 & Hrun & _).
      destruct (Write_leaves_Response chunkThreshold (ensured w) _ _ w1 Hwf0 Hrun)
        as (h1 & Hr1 & _).
      rewrite Hrun. destruct err; [eauto |].
      rewrite (Header_Set_run w1 h1) by done. eauto.
    + rewrite Encode_not_adopted_run by done.
      unfold takes_json_path in Hpath. rewrite Hna in Hpath. cbn in Hpath.
      apply negb_false_iff in Hpath.
      destruct (v_Message v) as [m |]; [| done]. rewrite Hpath.
      destruct (EncodeAsProtobuf_returns m (ensured w) Hwf0) as [w2 Hrun].
      eauto.
Qed.

(** With a header map that is not nil, the methods of [NilHeader] are the
    ones above. *)
Lemma NilHeader_ensure_Response_run nil_header w :
  NilHeader.ensure_Response nil_header w
  = Returns (header_is_nil nil_header w, ensured w).
Proof.
  destruct w as [st r].
  unfold NilHeader.ensure_Response, header_is_nil, ensured, ensure_Response,
    newHTTPResponse.
  run_m. destruct (Response_ r) eqn:Hr; run_m; rewrite ?Hr; done.
Qed.

Lemma header_is_nil_ensured nil_header w :
  header_is_nil (header_is_nil nil_header w) (ensured w)
  = header_is_nil nil_header w.
Proof.
  unfold header_is_nil at 1 3.
  destruct (ensured_Response w) as [h0 ->].
  unfold header_is_nil. by destruct (Response_ (snd w)).
Qed.

Lemma ensured_ensured w : ensured (ensured w) = ensured w.
Proof. unfold ensured at 1. by destruct (ensured_Response w) as [h0 ->]. Qed.

Lemma header_is_nil_false w : header_is_nil false w = false.
Proof. unfold header_is_nil. by destruct (Response_ (snd w)). Qed.

Lemma NilHeader_EncodeAsProtobuf_agrees m w :
  NilHeader.EncodeAsProtobuf chunkThreshold false m w
  = EncodeAsProtobuf chunkThreshold m w.
Proof.
  destruct m as [b | e]; [| done].
  unfold NilHeader.EncodeAsProtobuf, EncodeAsProtobuf, bind.
  rewrite NilHeader_ensure_Response_run, header_is_nil_false, Write_ensured.
  reflexivity.
Qed.

Lemma NilHeader_Encode_agrees nil_header v w :
  header_is_nil nil_header w = false ->
  NilHeader.Encode chunkThreshold nil_header v w = Encode chunkThreshold v w.
Proof.
  intros Hnil. unfold NilHeader.Encode, Encode, bind.
  rewrite NilHeader_ensure_Response_run, ensure_Response_run, Hnil.
  unfold get_r.
  repeat (case_match; simplify_eq; try done);
    apply NilHeader_EncodeAsProtobuf_agrees.
Qed.

(** [NilHeader.Encode] on the path of the structured-text codec, whatever
    the header map. *)
Lemma NilHeader_Encode_json_run nil_header v w :
  takes_json_path v (snd w) = true ->
  NilHeader.Encode chunkThreshold nil_header v w
  = match v_json v with
    | inr e =>
        Returns (tt, (fst (ensured w),
                      with_Error (snd (ensured w)) (terrors.Wrap (Some e) [])))
    | inl j =>
        match Write chunkThreshold (j ++ [newline]) w with
        | Returns ((_, Some e), w1) =>
            Returns (tt, (fst w1, with_Error (snd w1) (terrors.Wrap (Some e) [])))
        | Returns ((_, None), w1) =>
            NilHeader.Header_Set (header_is_nil nil_header w)
              "Content-Type" "application/json" w1
        | Panics => Panics
        end
    end.
Proof.
  unfold takes_json_path, adopted_as_stream, acceptsProtobuf. intros Hpath.
  apply andb_prop in Hpath as [Hna Hnp].
  apply negb_true_iff in Hna. apply negb_true_iff in Hnp.
  destruct (ensured_frame w) as (_ & _ & Hq & _).
  unfold NilHeader.Encode, json_Encode, bind.
  rewrite NilHeader_ensure_Response_run.
  rewrite <- Hq in Hnp.
  destruct (v_json v) as [j | e].
  - rewrite <- (Write_ensured (j ++ [newline]) w).
    destruct (ensured w) as [st0 r0]. cbn [snd] in Hnp.
    unfold get_r, ret, set_Error, bind, get_r, put_r. cbn [fst snd].
    destruct (v_Message v) as [m |], (v_Marshaler v), (v_Reader v) as [s |];
      try done; cbn [snd]; rewrite ?Hnp;
      by destruct (Write chunkThreshold (j ++ [newline]) (st0, r0))
        as [[[n [e |]] w1] |].
  - destruct (ensured w) as [st0 r0]. cbn [snd] in Hnp.
    unfold get_r, ret, set_Error, bind, get_r, put_r. cbn [fst snd].
    by destruct (v_Message v) as [m |], (v_Marshaler v), (v_Reader v) as [s |];
      try done; cbn [snd]; rewrite ?Hnp.
Qed.

End Json.

(** C8, as amended: [Encode] has no error result, and it returns for every
    value when the header map of the response is not nil.  On the path of
    the structured-text codec a failure is recorded whatever the header map:
    when marshalling fails with [e] nothing is written, and when the write
    of the marshalled bytes and a newline fails with [e] the world is the one
    that [Write] left; in both cases the error field is the wrapped [e] and
    the headers are as before.  When the write returns no error and the
    header map is not nil, the headers are the old ones with [Content-Type]
    set to [application/json] and the error field is as before. *)
Theorem Encode_never_raises chunkThreshold nil_header w v :
  well_formed w = true ->
  value_ok (fst w) v = true ->
  (header_is_nil nil_header w = false ->
   exists w', NilHeader.Encode chunkThreshold nil_header v w = Returns (tt, w'))
  /\ (takes_json_path v (snd w) = true ->
      (forall e,
          v_json v = inr e ->
          exists w2,
            NilHeader.Encode chunkThreshold nil_header v w = Returns (tt, w2)
            /\ fst w2 = fst (ensured w)
            /\ Error (snd w2) = terrors.Wrap (Some e) []
            /\ is_Some (Error (snd w2))
            /\ headers_of w2 = headers_of w)
      /\ (forall j n e w1,
             v_json v = inl j ->
             Write chunkThreshold (j ++ [newline]) w = Returns ((n, Some e), w1) ->
             exists w2,
               NilHeader.Encode chunkThreshold nil_header v w = Returns (tt, w2)
               /\ fst w2 = fst w1
               /\ Error (snd w2) = terrors.Wrap (Some e) []
               /\ is_Some (Error (snd w2))
               /\ headers_of w2 = headers_of w)
      /\ (forall j n w1,
             v_json v = inl j ->
             Write chunkThreshold (j ++ [newline]) w = Returns ((n, None), w1) ->
             header_is_nil nil_header w = false ->
             exists w2,
               NilHeader.Encode chunkThreshold nil_header v w = Returns (tt, w2)
               /\ fst w2 = fst w1
               /\ headers_of w2
                  = http.Set_ (headers_of w) "Content-Type" "application/json"
               /\ Error (snd w2) = Error (snd w))).
Proof.
  intros Hwf Hv. split.
  - intros Hnil. rewrite NilHeader_Encode_agrees by done.
    by apply Encode_returns.
  - intros Hpath. rewrite NilHeader_Encode_json_run by done.
    destruct (ensured_frame w) as (Hhd0 & He0 & _ & _).
    split; [| split].
    + intros e ->. eexists. split; [reflexivity |]. cbn [fst snd Error with_Error].
      split; [done |]. split; [done |]. split; [apply Wrap_error |].
      rewrite <- Hhd0. unfold headers_of. by destruct (snd (ensured w)).
    + intros j n e w1 -> Hrun. rewrite Hrun.
      destruct (Write_returns chunkThreshold w (j ++ [newline]) Hwf)
        as (n' & err' & w1' & Hrun' & _ & _ & Hhd & _).
      rewrite Hrun in Hrun'. simplify_eq.
      eexists. split; [reflexivity |]. cbn [fst snd Error with_Error].
      split; [done |]. split; [done |]. split; [apply Wrap_error |].
      rewrite <- Hhd. unfold headers_of. by destruct (snd w1').
    + intros j n w1 -> Hrun Hnil. rewrite Hrun, Hnil.
      destruct (Write_returns chunkThreshold w (j ++ [newline]) Hwf)
        as (n' & err' & w1' & Hrun' & _ & _ & Hhd & He & _).
      rewrite Hrun in Hrun'. simplify_eq.
      destruct (Write_leaves_Response chunkThreshold w _ _ w1' Hwf Hrun)
        as (h1 & Hr1 & _).
      unfold NilHeader.Header_Set. rewrite (Header_Set_run w1' h1) by done.
      eexists. split; [reflexivity |]. split; [done |].
      rewrite <- Hhd, <- He. unfold headers_of. cbn. rewrite Hr1.
      by destruct (snd w1').
Qed.

(** ** The consuming read *)

(** C10: for a response with a non-nil body, [BodyBytes(true)] reads the body
    to its end and then closes it, whether the read ended with [io.EOF]
    ([e = None]) or failed ([e = Some _]): the call returns what the read
    returned, the receiver still points to the same body, and [Close] has
    been called on that body.  The body stays closed: it is still closed
    after any later call of [Write]. *)
Theorem BodyBytes_consume_closes st r h body :
  Response_ r = Some h ->
  http.Body h = Some body ->
  readable st body = true ->
  exists d e st1 st',
    read_all st body = Some (d, e, st1)
    /\ BodyBytes true (st, r) = Returns ((d, e), (st', r))
    /\ closed_at st' body = true
    /\ forall chunkThreshold b, exists res w'',
         Write chunkThreshold b (st', r) = Returns (res, w'')
         /\ closed_at (fst w'') body = true.
Proof.
  intros Hr Hb Hread.
  destruct (read_all_total _ _ Hread) as (d & e & st1 & Hra).
  pose proof (read_all_extends _ _ _ _ _ Hra) as Hext1.
  destruct (extends_is_Some st st1 body) as [o Ho];
    eauto using readable_is_Some.
  assert (extends st1 (<[body := close_object o]> st1)) as Hext2.
  { eapply extends_insert_same; [exact Ho | apply shape_of_close_object |].
    intros _. apply is_closed_close_object. }
  assert (closed_at (<[body := close_object o]> st1) body = true) as Hclosed.
  { unfold closed_at. rewrite lookup_insert_eq. apply is_closed_close_object. }
  exists d, e, st1, (<[body := close_object o]> st1).
  split; [done |]. split; [by eapply BodyBytes_consume_run |].
  split; [done |]. intros chunkThreshold b.
  assert (well_formed (<[body := close_object o]> st1, r) = true) as Hwf.
  { unfold well_formed, body_of. cbn [fst snd]. rewrite Hr, Hb.
    eauto using readable_extends. }
  destruct (Write_returns chunkThreshold _ b Hwf)
    as (n & err & w'' & Hrun & _ & Hext3 & _).
  exists (n, err), w''. split; [done |].
  eapply extends_closed; [exact Hext3 | exact Hclosed].
Qed.

(** ** The claims on sample worlds *)

(** The scenario of the specification: two writes on a default response,
    then a consuming read. *)
Example Write_ab_cd_scenario :
  exists w',
    (Write sample_threshold bytes_ab ;;;
     Write sample_threshold bytes_cd ;;;
     BodyBytes true) default_world
    = Returns ((bytes_ab ++ bytes_cd, None), w')
    /\ content_length w' = Some 4.
Proof. eexists. split; vm_compute; reflexivity. Qed.

(** The overflow of the accounting, for every threshold above the smallest
    [int64]. *)
Lemma Write_overflow chunkThreshold :
  MinInt64 < chunkThreshold ->
  content_length (after (Write chunkThreshold [Byte.x00]) overflow_world)
  = Some MinInt64.
Proof.
  intros Hct.
  rewrite (surjective_pairing overflow_world).
  unfold after.
  rewrite (Write_writer_run chunkThreshold _ _ (response_at 0%nat MaxInt64 ∅)
             0%nat (bufCloser [] false) [Byte.x00]
             (bufCloser [Byte.x00] false) 1%nat None) by reflexivity.
  rewrite (account_run chunkThreshold _ _ (response_at 0%nat MaxInt64 ∅))
    by reflexivity.
  unfold content_length, accounted. cbn.
  assert (int64 (MaxInt64 + Z.of_nat 1) = MinInt64) as -> by reflexivity.
  assert ((0 <=? MaxInt64) = true) as -> by reflexivity.
  destruct (chunkThreshold <=? MinInt64) eqn:E; [| done].
  apply Z.leb_le in E. lia.
Qed.

(** C3 as stated fails: the content length is the largest [int64], one byte
    is written without error, the running total is past the chunk threshold,
    and the content length after the call is the smallest [int64], not
    [-1]. *)
Lemma Write_threshold_counterexample :
  well_formed overflow_world = true
  /\ content_length overflow_world = Some MaxInt64
  /\ 0 <= MaxInt64
  /\ sample_threshold <= MaxInt64 + Z.of_nat (length [Byte.x00])
  /\ exists w',
       Write sample_threshold [Byte.x00] overflow_world
       = Returns ((1%nat, None), w')
       /\ content_length w' = Some MinInt64
       /\ content_length w' <> Some (-1).
Proof.
  split; [reflexivity |]. split; [reflexivity |].
  split; [unfold MaxInt64; lia |].
  split; [unfold sample_threshold, MaxInt64; cbn; lia |].
  eexists. split; [vm_compute; reflexivity |].
  split; [vm_compute; reflexivity | vm_compute; discriminate].
Qed.

(** C5 fails on the path of the type mismatch: the response has no error, a
    binary content type and a body that reads without error; the target is
    not a [proto.Message].  [Decode] returns the internal error
    [invalid_type] and the error field of the response is still nil. *)
Theorem Decode_type_mismatch_not_recorded :
  Error (snd mismatch_world) = None
  /\ exists w',
       Decode mismatch_target mismatch_world
       = Returns (Some (terrors.InternalService "invalid_type"
                          "could not decode proto message" []), w')
       /\ Error (snd w') = None.
Proof.
  split; [reflexivity |].
  eexists. split; [vm_compute; reflexivity | reflexivity].
Qed.

(** C1 on a response received with a foreign stream for its body. *)
Lemma BodyBytes_false_twice_witness :
  exists d e w1 buf,
    BodyBytes false world_stream = Returns ((d, e), w1)
    /\ BodyBytes false w1 = Returns ((d, None), w1)
    /\ body_of w1 = Some buf
    /\ fst w1 !! buf = Some (bufCloser d false)
    /\ closed_at (fst w1) 7%nat = true.
Proof.
  destruct (BodyBytes_false_twice (fst world_stream) (snd world_stream)
              (response_at 7%nat (-1) ∅) 7%nat)
    as (d & e & w1 & buf & c & H1 & H2 & H3 & H4 & H5);
    [reflexivity | reflexivity | reflexivity |].
  exists d, e, w1, buf.
  split; [exact H1 |]. split; [exact H2 |]. split; [exact H3 |].
  vm_compute in H1. injection H1 as <- <- <-.
  split; [| reflexivity].
  vm_compute in H3. injection H3 as <-. reflexivity.
Defined.

(** C2 on the same response: the stream ends with [io.EOF]. *)
Lemma Write_foreign_drains_witness :
  exists st' r' o1,
    Write sample_threshold bytes_cd world_stream
    = Returns ((2%nat, None), (st', r'))
    /\ fst world_stream !! fresh (dom (fst world_stream)) = None
    /\ body_of (st', r') = Some (fresh (dom (fst world_stream)))
    /\ st' !! fresh (dom (fst world_stream))
       = Some (bufCloser (bytes_ab ++ bytes_cd) false)
    /\ <[7%nat := Foreign (exhaust stream_ab)]> (fst world_stream) !! 7%nat
       = Some o1
    /\ st' !! 7%nat = Some (close_object o1)
    /\ closed_at st' 7%nat = true.
Proof.
  apply (Write_foreign_drains sample_threshold (fst world_stream)
           (snd world_stream) (response_at 7%nat (-1) ∅) 7%nat
           (Foreign stream_ab) bytes_cd bytes_ab None
           (<[7%nat := Foreign (exhaust stream_ab)]> (fst world_stream)));
    reflexivity.
Defined.

(** C3, as amended, on a buffer of two bytes that gets two more. *)
Lemma Write_content_length_witness :
  2%nat = length bytes_cd
  /\ content_length (after (Write sample_threshold bytes_cd) world_buffer)
     = Some 4.
Proof.
  destruct (Write_content_length sample_threshold world_buffer 2 bytes_cd 2%nat
              (after (Write sample_threshold bytes_cd) world_buffer))
    as (Hn & Hbelow & _).
  - reflexivity.
  - reflexivity.
  - unfold MaxInt64. lia.
  - unfold MaxInt64. cbn. lia.
  - vm_compute. reflexivity.
  - split; [exact Hn |]. apply Hbelow.
    + unfold MaxInt64. cbn. lia.
    + unfold sample_threshold. cbn. lia.
Defined.

(** C4 on a failed response whose request asks for wrapping. *)
Lemma Decode_recorded_error_witness :
  Decode mismatch_target world_downstream
  = Returns (Some (TError "internal_service.downstream"
                          "Downstream request error" []
                          (Some (GoError "earlier failure"))),
             world_downstream).
Proof.
  destruct (Decode_recorded_error (fst world_downstream) (snd world_downstream)
              (GoError "earlier failure") mismatch_target eq_refl)
    as [Hwrap _].
  apply (Hwrap wrapping_request "true"%string); [reflexivity | reflexivity |].
  discriminate.
Defined.

(** C6 on a receiver without response and a reader without [Close]. *)
Lemma Encode_stream_witness :
  exists w' body d e st1 st2,
    Encode sample_threshold value_reader world_reader = Returns (tt, w')
    /\ body_of w' = Some body
    /\ (fst world_reader !! body = None
        /\ fst w' !! body = Some (NopCloser 3%nat false))
    /\ content_length w' = Some (-1)
    /\ headers_of w' = headers_of world_reader
    /\ Error (snd w') = None
    /\ read_all (fst world_reader) 3%nat = Some (d, e, st1)
    /\ read_all (fst w') body = Some (d, e, st2).
Proof.
  apply (Encode_stream sample_threshold (fst world_reader) (snd world_reader)
           value_reader 3%nat (Foreign reader_ab));
    reflexivity.
Defined.



(** C10 on a body whose read fails. *)
Lemma BodyBytes_consume_closes_witness :
  exists d err st1 st',
    read_all (fst world_failing) 7%nat = Some (d, Some err, st1)
    /\ BodyBytes true world_failing
       = Returns ((d, Some err), (st', snd world_failing))
    /\ closed_at st' 7%nat = true.
Proof.
  destruct (BodyBytes_consume_closes (fst world_failing) (snd world_failing)
              (response_at 7%nat (-1) ∅) 7%nat)
    as (d & e & st1 & st' & Hra & Hrun & Hclosed & _);
    [reflexivity | reflexivity | reflexivity |].
  vm_compute in Hra. injection Hra as <- <- <-.
  eexists _, _, _, st'. split; [vm_compute; reflexivity |].
  split; [exact Hrun | exact Hclosed].
Defined.

(** ** More on the constructors, [Write] and [BodyBytes] *)

Lemma Write_buffer_run chunkThreshold st r h rc d c b :
  Response_ r = Some h -> http.Body h = Some rc ->
  st !! rc = Some (bufCloser d c) ->
  Write chunkThreshold b (st, r)
  = Returns ((length b, None),
             (<[rc := bufCloser (d ++ b) c]> st,
              with_Response r
                (Some (http.with_ContentLength h
                         (accounted chunkThreshold (http.ContentLength h)
                                    (length b)))))).
Proof.
  intros Hr Hb Ho.
  rewrite (Write_writer_run chunkThreshold st r h rc (bufCloser d c) b
             (bufCloser (d ++ b) c) (length b) None) by done.
  by apply account_run.
Qed.

(** X1: [NewResponse] is [NewResponseWithCode] with status 200, and
    [NewResponseWithCode] returns a response with the given status code,
    content length 0, no header, no error and the request it was given.  Its
    body is a new empty buffer: it is not nil, reading it gives no bytes and
    no error, and no object that existed before is touched. *)
Theorem NewResponseWithCode_fresh req statusCode st r0 :
  NewResponse req (st, r0) = NewResponseWithCode req http.StatusOK (st, r0)
  /\ exists r h st',
    NewResponseWithCode req statusCode (st, r0) = Returns (r, (st', r0))
    /\ Response_ r = Some h
    /\ http.StatusCode h = statusCode
    /\ http.ContentLength h = 0
    /\ (forall key, http.Get (http.Header h) key = ""%string)
    /\ Error r = None
    /\ Request_ r = Some req
    /\ http.Body h = Some (fresh (dom st))
    /\ st !! fresh (dom st) = None
    /\ BodyBytes false (st', r) = Returns (([], None), (st', r))
    /\ BodyBytes true (st', r)
       = Returns (([], None), (<[fresh (dom st) := bufCloser [] true]> st, r))
    /\ forall a o, st !! a = Some o -> st' !! a = Some o.
Proof.
  split; [reflexivity |].
  set (h := http.mkResponse statusCode (ReqProto req) (ReqProtoMajor req)
              (ReqProtoMinor req) 0 ∅ (Some (fresh (dom st)))).
  exists (mkResponse (Some h) None (Some req) false), h,
         (<[fresh (dom st) := bufCloser [] false]> st).
  repeat (split; [reflexivity |]).
  split; [apply fresh_lookup |]. split; [| split].
  - eapply BodyBytes_view_run; [done | done |]. apply lookup_insert_eq.
  - rewrite (BodyBytes_consume_run _ _ h (fresh (dom st)) [] None
               (<[fresh (dom st) := bufCloser [] false]>
                  (<[fresh (dom st) := bufCloser [] false]> st))
               (bufCloser [] false)).
    + cbn [close_object]. by rewrite !insert_insert_eq.
    + done.
    + done.
    + unfold read_all, read_base. by rewrite lookup_insert_eq.
    + apply lookup_insert_eq.
  - intros a o Ha. rewrite lookup_insert_ne; [done |].
    intros E. pose proof (fresh_lookup st) as Hf. rewrite E in Hf. congruence.
Qed.

(** X2: on a response whose body is a buffer that holds [d], any run of
    calls of [Write] appends the slices in order: afterwards the body is the
    same buffer, it holds [d] followed by all the slices, and a
    non-consuming read returns exactly that. *)
Theorem Writes_append chunkThreshold bs : forall st r h rc d c,
  Response_ r = Some h ->
  http.Body h = Some rc ->
  st !! rc = Some (bufCloser d c) ->
  exists w',
    Writes chunkThreshold bs (st, r) = Returns (tt, w')
    /\ body_of w' = Some rc
    /\ fst w' !! rc = Some (bufCloser (d ++ concat bs) c)
    /\ BodyBytes false w' = Returns ((d ++ concat bs, None), w').
Proof.
  induction bs as [| b bs IH]; intros st r h rc d c Hr Hb Ho.
  - exists (st, r). cbn [Writes concat]. rewrite app_nil_r.
    split; [done |]. unfold body_of. cbn [fst snd]. rewrite Hr.
    split; [done |]. split; [done |]. by eapply BodyBytes_view_run.
  - cbn [Writes concat]. unfold bind.
    rewrite (Write_buffer_run chunkThreshold st r h rc d c b) by done.
    destruct (IH (<[rc := bufCloser (d ++ b) c]> st)
                (with_Response r
                   (Some (http.with_ContentLength h
                            (accounted chunkThreshold (http.ContentLength h)
                                       (length b)))))
                (http.with_ContentLength h
                   (accounted chunkThreshold (http.ContentLength h) (length b)))
                rc (d ++ b) c eq_refl Hb (lookup_insert_eq _ _ _))
      as (w' & Hrun & Hbody & Hbuf & Hread).
    exists w'. rewrite app_assoc. done.
Qed.

(** One call of [Write] keeps the content length on the buffer. *)
Lemma Write_tracked_step chunkThreshold w rc b :
  body_of w = Some rc ->
  length_tracked chunkThreshold w rc ->
  (forall d, buffered (fst w) rc = Some d ->
             Z.of_nat (length d) + Z.of_nat (length b) <= MaxInt64) ->
  exists w',
    Write chunkThreshold b w = Returns ((length b, None), w')
    /\ body_of w' = Some rc
    /\ length_tracked chunkThreshold w' rc
    /\ forall d, buffered (fst w) rc = Some d ->
                 buffered (fst w') rc = Some (d ++ b).
Proof.
  destruct w as [st r]. unfold body_of, length_tracked, content_length, buffered.
  cbn [fst snd]. intros Hbody (d & c & l & Ho & Hcl & Hinv) Hfit.
  destruct (Response_ r) as [h |] eqn:Hr; [| done]. simplify_eq.
  rewrite Ho in Hfit. specialize (Hfit d eq_refl).
  rewrite (Write_buffer_run chunkThreshold st r h rc d c b) by done.
  eexists. split; [done |]. cbn. split; [done |]. split.
  - exists (d ++ b), c. eexists. rewrite lookup_insert_eq.
    split; [done |]. split; [done |]. rewrite length_app, Nat2Z.inj_add.
    destruct Hinv as [[-> Hlt] | [-> Hge]].
    + destruct (Z_lt_ge_dec (Z.of_nat (length d) + Z.of_nat (length b))
                  chunkThreshold) as [Hlt' | Hge'].
      * left. split; [| done]. apply accounted_below; lia.
      * right. split; [| lia]. apply accounted_crossing; lia.
    + right. split; [| lia]. by apply accounted_unknown.
  - intros d' Hd'. rewrite Ho in Hd'. simplify_eq. by rewrite lookup_insert_eq.
Qed.

(** X3: while the content length follows the buffer and the bytes fit an
    [int64], every run of calls of [Write] keeps it so: each call returns,
    the body stays the same buffer, and the content length is the exact
    number of bytes in the body below the chunk threshold and [-1] from the
    threshold on. *)
Theorem Writes_keep_length_tracked chunkThreshold bs : forall w rc,
  body_of w = Some rc ->
  length_tracked chunkThreshold w rc ->
  (forall d, buffered (fst w) rc = Some d ->
             Z.of_nat (length d) + Z.of_nat (length (concat bs)) <= MaxInt64) ->
  exists w',
    Writes chunkThreshold bs w = Returns (tt, w')
    /\ body_of w' = Some rc
    /\ length_tracked chunkThreshold w' rc.
Proof.
  induction bs as [| b bs IH]; intros w rc Hbody Htr Hfit.
  - exists w. done.
  - cbn [concat] in Hfit. setoid_rewrite length_app in Hfit.
    destruct (Write_tracked_step chunkThreshold w rc b Hbody Htr)
      as (w1 & Hrun & Hbody1 & Htr1 & Hbuf1).
    { intros d Hd. specialize (Hfit d Hd). lia. }
    destruct (IH w1 rc Hbody1 Htr1) as (w' & Hruns & Hbody' & Htr').
    { intros d1 Hd1. destruct Htr as (d & c & l & Ho & _).
      assert (buffered (fst w) rc = Some d) as Hd.
      { unfold buffered. by rewrite Ho. }
      rewrite (Hbuf1 d Hd) in Hd1. simplify_eq.
      specialize (Hfit d Hd). rewrite length_app. lia. }
    exists w'. split; [| done]. cbn [Writes]. unfold bind. by rewrite Hrun.
Qed.

Lemma write_object_bound o b o' n err :
  write_object o b = Some (o', (n, err)) -> (n <= length b)%nat.
Proof.
  destruct o as [d c | f | i c]; cbn; intros H; simplify_eq; [done |].
  destruct (fs_sink f) as [[room e] |]; simplify_eq.
  unfold sink_foreign in *.
  destruct (length b <=? room)%nat eqn:E; simplify_eq/=; [done |].
  apply Nat.leb_gt in E. lia.
Qed.

Lemma Write_count chunkThreshold w b n err w' :
  well_formed w = true ->
  Write chunkThreshold b w = Returns ((n, err), w') ->
  (n <= length b)%nat.
Proof.
  destruct w as [st r]. intros Hwf.
  destruct (Response_ r) as [h |] eqn:Hr.
  - destruct (http.Body h) as [rc |] eqn:Hb.
    + assert (readable st rc = true) as Hread.
      { revert Hwf. unfold well_formed, body_of. cbn [fst snd]. by rewrite Hr, Hb. }
      destruct (readable_is_Some _ _ Hread) as [o Ho].
      destruct (is_Writer o) eqn:Hw.
      * destruct (write_object_writer o b Hw) as (o' & n' & err' & Hwo).
        rewrite (Write_writer_run chunkThreshold st r h rc o b o' n' err') by done.
        pose proof (write_object_bound _ _ _ _ _ Hwo).
        destruct err'; [intros; by simplify_eq |].
        erewrite account_run by exact Hr. intros; by simplify_eq.
      * destruct (read_all_total _ _ Hread) as (d & e & st1 & Hra).
        destruct (extends_is_Some st st1 rc) as [o1 Ho1];
          eauto using read_all_extends.
        rewrite (Write_drain_run chunkThreshold st r h rc o b d e st1 o1) by done.
        destruct e; [intros; simplify_eq; lia |].
        erewrite account_run by reflexivity. intros; by simplify_eq.
    + rewrite (Write_nil_run chunkThreshold st r h b) by done.
      erewrite account_run by reflexivity. intros; by simplify_eq.
  - rewrite Write_shell_run by done.
    erewrite Write_buffer_run; [| reflexivity | reflexivity | apply lookup_insert_eq].
    intros; by simplify_eq.
Qed.

(** X4: on a well-formed world [Write] returns, and it keeps the contract of
    [io.Writer]: the count is at most [len(b)] and is [len(b)] when no error
    is returned.  It never changes the headers, the error field or the
    request, and when it returns an error the content length is the one
    before the call. *)
Theorem Write_frame chunkThreshold w b :
  well_formed w = true ->
  exists n err w',
    Write chunkThreshold b w = Returns ((n, err), w')
    /\ (n <= length b)%nat
    /\ (err = None -> n = length b)
    /\ headers_of w' = headers_of w
    /\ Error (snd w') = Error (snd w)
    /\ Request_ (snd w') = Request_ (snd w)
    /\ well_formed w' = true
    /\ (is_Some err -> content_length w' = Some (length_before w)).
Proof.
  intros Hwf.
  destruct (Write_returns chunkThreshold w b Hwf)
    as (n & err & w' & Hrun & Hwf' & _ & Hhd & He & Hq & Hcl).
  exists n, err, w'. split; [done |].
  split; [exact (Write_count chunkThreshold w b n err w' Hwf Hrun) |].
  split; [intros ->; by destruct Hcl |].
  repeat (split; [done |]).
  intros [e ->]. done.
Qed.

(** X5: [Write] on a receiver without response builds the shell first: the
    call returns [len(b)] and no error, the response has status 200 and no
    header, its body is a new buffer that holds exactly [b], and the content
    length is [len(b)] below the chunk threshold and [-1] from the threshold
    on.  The error field and the request are as before. *)
Theorem Write_builds_shell chunkThreshold st r b :
  Response_ r = None ->
  Z.of_nat (length b) <= MaxInt64 ->
  exists st' r' h,
    Write chunkThreshold b (st, r) = Returns ((length b, None), (st', r'))
    /\ Response_ r' = Some h
    /\ http.StatusCode h = http.StatusOK
    /\ http.Header h = ∅
    /\ http.Body h = Some (fresh (dom st))
    /\ st !! fresh (dom st) = None
    /\ st' !! fresh (dom st) = Some (bufCloser b false)
    /\ http.ContentLength h
       = (if Z.of_nat (length b) <? chunkThreshold
          then Z.of_nat (length b) else -1)
    /\ Error r' = Error r
    /\ Request_ r' = Request_ r.
Proof.
  intros Hr Hlen. rewrite Write_shell_run by done.
  erewrite Write_buffer_run; [| reflexivity | reflexivity | apply lookup_insert_eq].
  assert (accounted chunkThreshold 0 (length b)
          = if Z.of_nat (length b) <? chunkThreshold
            then Z.of_nat (length b) else -1) as Hacc.
  { destruct (Z.ltb_spec (Z.of_nat (length b)) chunkThreshold).
    - rewrite accounted_below; lia.
    - rewrite accounted_crossing; lia. }
  cbn [http.ContentLength]. rewrite Hacc.
  do 3 eexists. split; [reflexivity |]. cbn.
  repeat (split; [done |]).
  split; [apply fresh_lookup |]. split; [apply lookup_insert_eq |].
  by destruct r.
Qed.

Lemma deliver_closed_exhausted f :
  fst (deliver (close_foreign (exhaust f))) = [].
Proof.
  unfold deliver, close_foreign, exhaust.
  destruct (fs_closed f) eqn:Hc, (fs_after_close f) eqn:Ha; cbn;
    rewrite ?Hc, ?Ha; done.
Qed.

Lemma deliver_exhausted f : fst (deliver (exhaust f)) = [].
Proof.
  unfold deliver, exhaust.
  destruct (fs_closed f) eqn:Hc, (fs_after_close f) eqn:Ha; cbn;
    rewrite ?Hc, ?Ha; done.
Qed.

(** Reading once more a stream that was read to its end and closed. *)
Lemma read_all_again st a d e st1 o :
  read_all st a = Some (d, e, st1) ->
  st1 !! a = Some o ->
  exists e2 st2,
    read_all (<[a := close_object o]> st1) a = Some ([], e2, st2).
Proof.
  unfold read_all, read_base. intros Hra Ho.
  destruct (st !! a) as [[d0 c | f | i c] |] eqn:Ha; simplify_eq.
  - rewrite lookup_insert_eq in Ho. simplify_eq. cbn.
    rewrite lookup_insert_eq. eauto.
  - rewrite lookup_insert_eq in Ho. simplify_eq. cbn.
    rewrite lookup_insert_eq. rewrite deliver_closed_exhausted. eauto.
  - assert (i <> a) as Hne.
    { intros ->. rewrite Ha in Hra. done. }
    destruct (st !! i) as [[di ci | fi | ii ci] |] eqn:Hi; simplify_eq;
      rewrite lookup_insert_ne in Ho by done; rewrite Ha in Ho; simplify_eq;
      cbn; rewrite lookup_insert_eq; rewrite lookup_insert_ne by done;
      rewrite lookup_insert_eq; rewrite ?deliver_exhausted; eauto.
Qed.


(** A non-consuming read leaves a buffer that holds what it returned. *)
Lemma BodyBytes_false_buffer st r h rc :
  Response_ r = Some h ->
  http.Body h = Some rc ->
  readable st rc = true ->
  exists d e st1 r1 h1 buf c,
    BodyBytes false (st, r) = Returns ((d, e), (st1, r1))
    /\ Response_ r1 = Some h1
    /\ http.Body h1 = Some buf
    /\ st1 !! buf = Some (bufCloser d c).
Proof.
  intros Hr Hb Hread.
  destruct (readable_is_Some _ _ Hread) as [o Ho].
  destruct (is_bufCloser o) eqn:Hk.
  - destruct o as [d c | |]; try done.
    exists d, None, st, r, h, rc, c.
    by rewrite (BodyBytes_view_run st r h rc d c).
  - destruct (read_all_total _ _ Hread) as (d & e & st1 & Hra).
    destruct (extends_is_Some st st1 rc) as [o1 Ho1];
      eauto using read_all_extends.
    destruct (read_all_insert_fresh st rc (fresh (dom st)) (bufCloser [] false)
                d e st1 (fresh_lookup st) Hra) as [_ Hfresh].
    assert (fresh (dom st) <> rc) as Hne by congruence.
    rewrite (BodyBytes_duplicate_run st r h rc o) by done.
    rewrite (duplicate_run st r h rc d e st1 o1) by done.
    do 7 eexists. split; [done |]. split; [done |]. split; [done |].
    rewrite lookup_insert_ne by done. apply lookup_insert_eq.
Qed.

(** X7: a non-consuming read does not use up the body: [BodyBytes(true)]
    after [BodyBytes(false)] returns the same bytes, without error, and
    after that the body holds nothing. *)
Theorem BodyBytes_false_then_consume st r h rc :
  Response_ r = Some h ->
  http.Body h = Some rc ->
  readable st rc = true ->
  exists d e w1 w2,
    BodyBytes false (st, r) = Returns ((d, e), w1)
    /\ BodyBytes true w1 = Returns ((d, None), w2)
    /\ BodyBytes false w2 = Returns (([], None), w2).
Proof.
  intros Hr Hb Hread.
  destruct (BodyBytes_false_buffer st r h rc Hr Hb Hread)
    as (d & e & st1 & r1 & h1 & buf & c & Hrun & Hr1 & Hb1 & Hbuf).
  exists d, e, (st1, r1). eexists. split; [done |]. split.
  - eapply (BodyBytes_consume_run st1 r1 h1 buf d None
              (<[buf := bufCloser [] c]> st1) (bufCloser [] c)); try done.
    + unfold read_all, read_base. by rewrite Hbuf.
    + apply lookup_insert_eq.
  - eapply BodyBytes_view_run; [done | done |]. cbn. apply lookup_insert_eq.
Qed.

(** X8: without body there is nothing to read and nothing to close:
    [BodyBytes] panics in both modes when the response or its body is nil,
    and so does [Decode] on a response with a nil body and no error. *)
Theorem BodyBytes_nil_panics st r consume v :
  body_of (st, r) = None ->
  BodyBytes consume (st, r) = Panics
  /\ (Error r = None -> is_Some (Response_ r) -> Decode v (st, r) = Panics).
Proof.
  unfold body_of. cbn [fst snd]. intros Hnil.
  assert (forall c, BodyBytes c (st, r) = Panics) as Hpanic.
  { intros c. unfold BodyBytes, duplicate. run_m.
    destruct (Response_ r) as [h |] eqn:Hr; [| done].
    rewrite Hnil. destruct c; run_m; [done |]. by rewrite Hr. }
  split; [apply Hpanic |].
  intros He [h Hr]. unfold Decode. run_m. rewrite He, Hr.
  by rewrite Hpanic.
Qed.

(** ** More on [Decode], [Encode] and [EncodeAsProtobuf] *)

(** X9: [Decode] on a receiver without response and without error reads
    nothing: it records and returns the internal error "Response has no
    body", and a later [Decode] returns the same error when the request does
    not ask for wrapping. *)
Theorem Decode_without_response st r v v' :
  Error r = None ->
  Response_ r = None ->
  wraps_downstream r = false ->
  let e := TError "internal_service" "Response has no body" [] None in
  Decode v (st, r) = Returns (Some e, (st, with_Error r (Some e)))
  /\ Decode v' (st, with_Error r (Some e))
     = Returns (Some e, (st, with_Error r (Some e))).
Proof.
  intros He Hr Hw. cbn zeta. split.
  - unfold Decode. run_m. by rewrite He, Hr.
  - unfold Decode. run_m.
    assert (wraps_downstream
              (with_Error r (Some (TError "internal_service"
                                          "Response has no body" [] None)))
            = false) as ->; [| done].
    by destruct r.
Qed.

(** X10: when reading the body fails with a plain error, [Decode] asks no
    codec: whatever the target and the content type, it returns an error
    with the code [bad_response], the message of the read error and the
    read error as cause, stores it in the error field, and the body has been
    closed. *)
Theorem Decode_read_failure st r h body d msg st1 v :
  Error r = None ->
  Response_ r = Some h ->
  http.Body h = Some body ->
  read_all st body = Some (d, Some (GoError msg), st1) ->
  exists st',
    Decode v (st, r)
    = Returns (Some (TError "bad_response" msg [] (Some (GoError msg))),
               (st', with_Error r
                       (Some (TError "bad_response" msg []
                                     (Some (GoError msg))))))
    /\ closed_at st' body = true.
Proof.
  intros He Hr Hb Hra.
  destruct (extends_is_Some st st1 body) as [o Ho].
  { eauto using read_all_extends. }
  { revert Hra. unfold read_all, read_base. destruct (st !! body); eauto. done. }
  exists (<[body := close_object o]> st1). split.
  - unfold Decode. run_m. rewrite He, Hr.
    rewrite (BodyBytes_consume_run st r h body d (Some (GoError msg)) st1 o)
      by done.
    done.
  - unfold closed_at. rewrite lookup_insert_eq. apply is_closed_close_object.
Qed.

(** Reading once more a buffer that was read to its end and closed gives
    no error. *)
Lemma read_all_again_buffer st a d0 c d e st1 o e2 st2 :
  st !! a = Some (bufCloser d0 c) ->
  read_all st a = Some (d, e, st1) ->
  st1 !! a = Some o ->
  read_all (<[a := close_object o]> st1) a = Some ([], e2, st2) ->
  e2 = None.
Proof.
  unfold read_all, read_base. intros Ha Hra Ho. rewrite Ha in Hra.
  simplify_eq. rewrite lookup_insert_eq in Ho. simplify_eq. cbn.
  rewrite lookup_insert_eq. intros; by simplify_eq.
Qed.

(** X11: [Decode] chooses the codec by the content type of the response, not
    by the target: with a content type that is not binary, or none, the
    bytes of the body go to [json.Unmarshal] even for a [proto.Message].
    The body is used up by the call.  After a [Decode] that succeeded, a
    second [Decode] sees no byte of it: when the closed body reads as empty
    without error, as a Deferred buffer always does, the codec gets the
    empty byte sequence; when the closed body refuses the read, no codec is
    asked and the result is the read error wrapped with the code of a bad
    response. *)
Theorem Decode_twice st r h body d st1 v v' :
  Error r = None ->
  Response_ r = Some h ->
  http.Body h = Some body ->
  read_all st body = Some (d, None, st1) ->
  binary_media_type (http.Get (http.Header h) "Content-Type") = false ->
  t_json_Unmarshal v d = None ->
  exists w1 e2 st2 w2,
    Decode v (st, r) = Returns (None, w1)
    /\ read_all (fst w1) body = Some ([], e2, st2)
    /\ Decode v' w1
       = Returns (match e2 with
                  | None => t_json_Unmarshal v' []
                  | Some _ => terrors.WrapWithCode e2 [] terrors.ErrBadResponse
                  end, w2)
    /\ (forall d0 c, st !! body = Some (bufCloser d0 c) -> e2 = None).
Proof.
  intros He Hr Hb Hra Hct Hok.
  destruct (extends_is_Some st st1 body) as [o Ho].
  { eauto using read_all_extends. }
  { revert Hra. unfold read_all, read_base. destruct (st !! body); eauto. done. }
  destruct (read_all_again st body d None st1 o Hra Ho) as (e2 & st2 & Hra2).
  destruct (extends_is_Some (<[body := close_object o]> st1) st2 body)
    as [o2 Ho2].
  { eauto using read_all_extends. }
  { rewrite lookup_insert_eq. eauto. }
  rewrite (Decode_run st r h body d st1 o) by done.
  rewrite Hct, Hok.
  assert (exists w2,
             Decode v' (<[body := close_object o]> st1, r)
             = Returns (match e2 with
                        | None => t_json_Unmarshal v' []
                        | Some _ =>
                            terrors.WrapWithCode e2 [] terrors.ErrBadResponse
                        end, w2)) as [w2 Hsecond].
  { destruct e2 as [e2 |].
    - eexists. unfold Decode. run_m. rewrite He, Hr.
      rewrite (BodyBytes_consume_run _ r h body [] (Some e2) st2 o2) by done.
      reflexivity.
    - rewrite (Decode_run _ r h body [] st2 o2) by done.
      rewrite Hct. destruct (t_json_Unmarshal v' []); eauto. }
  exists (<[body := close_object o]> st1, r), e2, st2, w2.
  split; [done |]. split; [exact Hra2 |]. split; [exact Hsecond |].
  intros d0 c Hbuf. by eapply read_all_again_buffer.
Qed.


Section MoreNegotiation.

Variable chunkThreshold : Z.






End MoreNegotiation.

(** ** The Accept header *)






Section Negotiates.

Variable chunkThreshold : Z.



End Negotiates.

(** ** The diagnostic string *)

Lemma pretty_N_char_not_mark x : pretty_N_char x <> "?"%char.
Proof. unfold pretty_N_char. by repeat case_match. Qed.

Lemma pretty_N_go_not_marks x s :
  match s with String c _ => c <> "?"%char | EmptyString => True end ->
  pretty_N_go x s <> "???"%string.
Proof.
  revert s. induction (N.lt_wf_0 x) as [x _ IH]; intros s Hs.
  destruct (decide (0 < x)%N) as [Hx |].
  - rewrite pretty_N_go_step by done. apply IH.
    + by apply N.div_lt.
    + apply pretty_N_char_not_mark.
  - assert (x = 0%N) as -> by lia. rewrite pretty_N_go_0.
    destruct s as [| c s]; [done |]. intros E. by simplify_eq.
Qed.

Lemma pretty_Z_not_marks (z : Z) : pretty z <> "???"%string.
Proof.
  unfold pretty, pretty_Z. intros H. destruct z as [| p | p]; simplify_eq/=.
  by destruct (pretty_N_go_not_marks (N.pos p) "").
Qed.

Lemma append_close_inj s1 : forall s2,
  (s1 +:+ ")" = s2 +:+ ")")%string -> s1 = s2.
Proof.
  induction s1 as [| a s1 IH]; intros [| b s2] H; cbv [String.append] in H;
    fold String.append in H; simplify_eq.
  - done.
  - by destruct s2.
  - by destruct s1.
  - f_equal. by apply IH.
Qed.

(** X17: the diagnostic string shows the status faithfully: for two
    responses without error it is the same string exactly when both have no
    response, or both have one with the same status code. *)
Theorem Response_String_status error_string r1 r2 :
  Error r1 = None ->
  Error r2 = None ->
  Response_String error_string r1 = Response_String error_string r2
  <-> http.StatusCode <$> Response_ r1 = http.StatusCode <$> Response_ r2.
Proof.
  intros He1 He2. unfold Response_String. rewrite He1, He2. split.
  - intros H. cbn [String.append] in H. simplify_eq.
    destruct (Response_ r1) as [h1 |], (Response_ r2) as [h2 |]; cbn.
    + apply append_close_inj in H. apply (inj pretty) in H. congruence.
    + apply append_close_inj in H. by apply pretty_Z_not_marks in H.
    + apply append_close_inj in H. symmetry in H.
      by apply pretty_Z_not_marks in H.
    + done.
  - intros H.
    destruct (Response_ r1) as [h1 |], (Response_ r2) as [h2 |];
      cbn in H; simplify_eq; [| done].
    by rewrite H.
Qed.

(** ** What [Decode] and [Encode] do to the streams *)

(** X18: whenever [Decode] reads the body it closes it: on a response
    without error and with a body, the call returns, whatever the content
    type, the target and the answer of the codec, and afterwards the body is
    still the same stream and it is closed. *)
Theorem Decode_closes_body st r h body v :
  Error r = None ->
  Response_ r = Some h ->
  http.Body h = Some body ->
  readable st body = true ->
  exists res w',
    Decode v (st, r) = Returns (res, w')
    /\ body_of w' = Some body
    /\ closed_at (fst w') body = true.
Proof.
  intros He Hr Hb Hread.
  destruct (read_all_total _ _ Hread) as (d & e & st1 & Hra).
  destruct (extends_is_Some st st1 body) as [o Ho];
    eauto using read_all_extends, readable_is_Some.
  assert (closed_at (<[body := close_object o]> st1) body = true) as Hclosed.
  { unfold closed_at. rewrite lookup_insert_eq. apply is_closed_close_object. }
  assert (forall e', body_of (<[body := close_object o]> st1, with_Error r e')
                     = Some body) as Hbody.
  { intros e'. unfold body_of. cbn. by rewrite Hr. }
  assert (body_of (<[body := close_object o]> st1, r) = Some body) as Hbody'.
  { unfold body_of. cbn. by rewrite Hr. }
  destruct e as [e |].
  - exists (terrors.WrapWithCode (Some e) [] terrors.ErrBadResponse),
           (<[body := close_object o]> st1,
            with_Error r (terrors.WrapWithCode (Some e) []
                                               terrors.ErrBadResponse)).
    split; [| by split].
    unfold Decode. run_m. rewrite He, Hr.
    by rewrite (BodyBytes_consume_run st r h body d (Some e) st1 o).
  - rewrite (Decode_run st r h body d st1 o) by done.
    destruct (binary_media_type _); [destruct (t_Message v) |];
      try destruct (t_proto_Unmarshal v d);
      try destruct (t_json_Unmarshal v d);
      eexists _, _; (split; [reflexivity |]); by split.
Qed.

(** X19: [Encode] of a stream reads nothing, writes nothing and closes
    nothing: every object of the store is as before, the former body and
    the stream itself included; the former body is only no longer the
    body. *)
Theorem Encode_stream_touches_nothing chunkThreshold st r h v s o :
  Response_ r = Some h ->
  v_Message v = None ->
  v_Marshaler v = false ->
  v_Reader v = Some s ->
  st !! s = Some o ->
  exists w',
    Encode chunkThreshold v (st, r) = Returns (tt, w')
    /\ (forall a oa, st !! a = Some oa -> fst w' !! a = Some oa)
    /\ (has_Close o = true -> fst w' = st /\ body_of w' = Some s).
Proof.
  intros Hr Hm Hj Hs Ho.
  rewrite (Encode_stream_run chunkThreshold st r h v s o) by done.
  destruct (has_Close o).
  - eexists. split; [reflexivity |]. cbn [fst]. split; [done |].
    intros _. split; [done |]. unfold body_of. by cbn.
  - eexists. split; [reflexivity |]. cbn [fst]. split; [| done].
    intros a oa Ha. rewrite lookup_insert_ne; [done |].
    intros E. pose proof (fresh_lookup st) as Hf. rewrite E in Hf. congruence.
Qed.

(** ** The further properties on sample worlds *)

(** X2 on a buffer that holds [ab]. *)
Lemma Writes_append_witness :
  exists w',
    Writes sample_threshold [bytes_cd; bytes_ab] world_buffer = Returns (tt, w')
    /\ body_of w' = Some 0%nat
    /\ fst w' !! 0%nat
       = Some (bufCloser (bytes_ab ++ concat [bytes_cd; bytes_ab]) false)
    /\ BodyBytes false w'
       = Returns ((bytes_ab ++ concat [bytes_cd; bytes_ab], None), w').
Proof.
  apply (Writes_append sample_threshold [bytes_cd; bytes_ab]
           (fst world_buffer) (snd world_buffer) (response_at 0%nat 2 ∅)
           0%nat bytes_ab false);
    reflexivity.
Defined.

(** X3 on the same buffer, whose content length is 2. *)
Lemma Writes_keep_length_tracked_witness :
  exists w',
    Writes sample_threshold [bytes_cd; bytes_ab] world_buffer = Returns (tt, w')
    /\ body_of w' = Some 0%nat
    /\ length_tracked sample_threshold w' 0%nat.
Proof.
  apply (Writes_keep_length_tracked sample_threshold [bytes_cd; bytes_ab]
           world_buffer 0%nat).
  - reflexivity.
  - exists bytes_ab, false, 2. split; [reflexivity |]. split; [reflexivity |].
    left. split; [reflexivity |]. unfold sample_threshold. cbn. lia.
  - intros d Hd. vm_compute in Hd. injection Hd as <-.
    unfold MaxInt64. cbn. lia.
Defined.

(** X4 on a response whose body is a foreign stream. *)
Lemma Write_frame_witness :
  exists n err w',
    Write sample_threshold bytes_cd world_stream = Returns ((n, err), w')
    /\ (n <= length bytes_cd)%nat
    /\ headers_of w' = headers_of world_stream
    /\ Error (snd w') = None
    /\ well_formed w' = true.
Proof.
  destruct (Write_frame sample_threshold world_stream bytes_cd eq_refl)
    as (n & err & w' & Hrun & Hn & _ & Hhd & He & _ & Hwf & _).
  exists n, err, w'. repeat (split; [assumption |]). exact Hwf.
Defined.

(** X5 on a receiver without response. *)
Lemma Write_builds_shell_witness :
  exists st' r' h,
    Write sample_threshold bytes_cd world_reader
    = Returns ((2%nat, None), (st', r'))
    /\ Response_ r' = Some h
    /\ http.StatusCode h = http.StatusOK
    /\ st' !! fresh (dom (fst world_reader)) = Some (bufCloser bytes_cd false)
    /\ http.ContentLength h = 2.
Proof.
  destruct (Write_builds_shell sample_threshold (fst world_reader)
              (snd world_reader) bytes_cd)
    as (st' & r' & h & Hrun & Hr & Hs & _ & _ & _ & Hbuf & Hcl & _).
  - reflexivity.
  - unfold MaxInt64. cbn. lia.
  - exists st', r', h. repeat (split; [assumption |]). exact Hcl.
Defined.


(** X7 on the same response. *)
Lemma BodyBytes_false_then_consume_witness :
  exists d e w1 w2,
    BodyBytes false world_stream = Returns ((d, e), w1)
    /\ BodyBytes true w1 = Returns ((d, None), w2)
    /\ BodyBytes false w2 = Returns (([], None), w2).
Proof.
  apply (BodyBytes_false_then_consume (fst world_stream) (snd world_stream)
           (response_at 7%nat (-1) ∅) 7%nat);
    reflexivity.
Defined.

(** X8 on a response whose body is nil. *)
Lemma BodyBytes_nil_panics_witness :
  BodyBytes true world_no_body = Panics
  /\ Decode mismatch_target world_no_body = Panics.
Proof.
  destruct (BodyBytes_nil_panics (fst world_no_body) (snd world_no_body)
              true mismatch_target eq_refl) as [Hread Hdecode].
  split; [exact Hread |]. apply Hdecode; [reflexivity |].
  exists (http.mkResponse http.StatusOK "HTTP/1.1" 1 1 0 ∅ None). reflexivity.
Defined.

(** X9 on a receiver without response. *)
Lemma Decode_without_response_witness :
  Decode mismatch_target world_reader
  = Returns (Some (TError "internal_service" "Response has no body" [] None),
             (fst world_reader,
              with_Error (snd world_reader)
                (Some (TError "internal_service" "Response has no body" []
                              None)))).
Proof.
  apply (Decode_without_response (fst world_reader) (snd world_reader)
           mismatch_target mismatch_target eq_refl eq_refl eq_refl).
Defined.

(** X10 on a body whose read fails. *)
Lemma Decode_read_failure_witness :
  exists st',
    Decode mismatch_target world_failing
    = Returns (Some (TError "bad_response" "connection reset" []
                            (Some (GoError "connection reset"))),
               (st', with_Error (snd world_failing)
                       (Some (TError "bad_response" "connection reset" []
                                     (Some (GoError "connection reset"))))))
    /\ closed_at st' 7%nat = true.
Proof.
  apply (Decode_read_failure (fst world_failing) (snd world_failing)
           (response_at 7%nat (-1) ∅) 7%nat bytes_ab "connection reset"
           (<[7%nat := Foreign (exhaust stream_failing)]> (fst world_failing))
           mismatch_target);
    reflexivity.
Defined.

(** X11 on a body that refuses to be read once it is closed. *)
Lemma Decode_twice_witness :
  exists w1 w2,
    Decode mismatch_target world_strict = Returns (None, w1)
    /\ Decode target_cd w1
       = Returns (Some (TError "bad_response"
                               "http: read on closed response body" []
                               (Some (GoError
                                        "http: read on closed response body"))),
                  w2).
Proof.
  destruct (Decode_twice (fst world_strict) (snd world_strict)
              (response_at 7%nat (-1) ∅) 7%nat bytes_ab
              (<[7%nat := Foreign (exhaust stream_strict)]> (fst world_strict))
              mismatch_target target_cd)
    as (w1 & e2 & st2 & w2 & Hfirst & Hread & Hsecond & _);
    [reflexivity .. |].
  vm_compute in Hfirst. injection Hfirst as <-.
  vm_compute in Hread. injection Hread as <- <-.
  eexists _, w2. split; [vm_compute; reflexivity |]. exact Hsecond.
Defined.





(** X17 on two responses with status 200. *)
Lemma Response_String_status_witness :
  Response_String terrors.Message (snd world_buffer)
  = Response_String terrors.Message (snd world_no_body).
Proof.
  apply (Response_String_status terrors.Message (snd world_buffer)
           (snd world_no_body) eq_refl eq_refl).
  reflexivity.
Defined.

(** X18 on a response whose body is a foreign stream. *)
Lemma Decode_closes_body_witness :
  exists res w',
    Decode mismatch_target world_stream = Returns (res, w')
    /\ body_of w' = Some 7%nat
    /\ closed_at (fst w') 7%nat = true.
Proof.
  apply (Decode_closes_body (fst world_stream) (snd world_stream)
           (response_at 7%nat (-1) ∅) 7%nat mismatch_target);
    reflexivity.
Defined.

(** X19 on a response with a buffer body and a plain reader to encode. *)
Lemma Encode_stream_touches_nothing_witness :
  exists w',
    Encode sample_threshold value_reader world_two = Returns (tt, w')
    /\ fst w' !! 0%nat = Some (bufCloser bytes_ab false)
    /\ fst w' !! 3%nat = Some (Foreign reader_ab).
Proof.
  destruct (Encode_stream_touches_nothing sample_threshold (fst world_two)
              (snd world_two) (response_at 0%nat 2 ∅) value_reader 3%nat
              (Foreign reader_ab) eq_refl eq_refl eq_refl eq_refl eq_refl)
    as (w' & Hrun & Hkeep & _).
  exists w'. split; [exact Hrun |].
  split; apply Hkeep; reflexivity.
Defined.

(** ** The header map that is nil *)

(** C8 as stated fails: the response has a body and a nil header map, the
    value marshals to [cd] and the write of [cd] and a newline returns no
    error; [Encode] then panics at [Header.Set]. *)
Lemma Encode_nil_header_counterexample :
  well_formed world_buffer = true
  /\ value_ok (fst world_buffer) value_plain = true
  /\ takes_json_path value_plain (snd world_buffer) = true
  /\ v_json value_plain = inl bytes_cd
  /\ Write sample_threshold (bytes_cd ++ [newline]) world_buffer
     = Returns ((3%nat, None),
                after (Write sample_threshold (bytes_cd ++ [newline]))
                      world_buffer)
  /\ NilHeader.Encode sample_threshold true value_plain world_buffer = Panics.
Proof. repeat split; vm_compute; reflexivity. Qed.

(** C8, as amended, on a value that cannot be marshalled and on one that
    can, with a header map that is not nil. *)
Lemma Encode_never_raises_witness :
  (exists w',
      NilHeader.Encode sample_threshold false value_unencodable world_buffer
      = Returns (tt, w'))
  /\ (exists w2,
         NilHeader.Encode sample_threshold false value_unencodable world_buffer
         = Returns (tt, w2)
         /\ Error (snd w2)
            = terrors.Wrap (Some (GoError "json: unsupported type")) []
         /\ headers_of w2 = headers_of world_buffer)
  /\ (exists w2,
         NilHeader.Encode sample_threshold false value_plain world_buffer
         = Returns (tt, w2)
         /\ headers_of w2
            = http.Set_ (headers_of world_buffer)
                        "Content-Type" "application/json").
Proof.
  destruct (Encode_never_raises sample_threshold false world_buffer
              value_unencodable eq_refl eq_refl) as [Hret Hjson].
  destruct (Hjson eq_refl) as (Hmarshal & _ & _).
  destruct (Hmarshal (GoError "json: unsupported type") eq_refl)
    as (w2 & Hrun & _ & He & _ & Hhd).
  split; [exact (Hret eq_refl) |]. split; [by exists w2 |].
  destruct (Encode_never_raises sample_threshold false world_buffer
              value_plain eq_refl eq_refl) as [_ Hjson'].
  destruct (Hjson' eq_refl) as (_ & _ & Hwritten).
  destruct (Hwritten bytes_cd 3%nat
              (after (Write sample_threshold (bytes_cd ++ [newline]))
                     world_buffer) eq_refl)
    as (w3 & Hrun3 & _ & Hhd3 & _); [vm_compute; reflexivity | reflexivity |].
  by exists w3.
Defined.

